(** * logo-archive: the filename parser and the search/filter engine

    A shallow embedding of the logic of the logo gallery page:

    - [parseLogoFromFilename] (full-guard variant, the one with the
      explicit [throw]s, and the partial-guard variant of
      [src/app/page.tsx]),
    - [isInDecade] and the [filteredLogos] callback,
    - the toggle handlers of [ColorSelector] and [TypographySelector].

    Data model.  A JavaScript string is a sequence of code units; the
    embedding covers the strings whose code units are below 256
    (Latin-1), as [String.string].  A JavaScript [number] that holds an
    integer is a [Z] and [NaN] is a constructor of its own; the integer
    arithmetic of [JS] is the arithmetic of the code as long as the
    integers stay in the range where doubles are exact ([exactRange],
    absolute value below 2^53 - 9), which is where every year lives, and
    the statements about the decade test are made for that range.
    [Double] computes the same test in binary64 for what lies beyond. *)

From Stdlib Require Import String Ascii List ZArith NArith Bool Lia.
From Stdlib Require Import SpecFloat.
From stdpp Require Import list.
Import ListNotations.

Local Open Scope string_scope.
Local Open Scope Z_scope.

(* ===================================================================== *)
(** * The JavaScript primitives the page uses *)
(* ===================================================================== *)

Module JS.

(** ** Code units *)

Definition code (c : ascii) : Z := Z.of_N (N_of_ascii c).

Definition between (lo hi n : Z) : bool := (lo <=? n) && (n <=? hi).

(** The character class [[A-Z]] of the regular expression. *)
Definition isUpperAZ (c : ascii) : bool := between 65 90 (code c).

(** [WhiteSpace] and [LineTerminator] code units below 256: TAB, LF, VT,
    FF, CR, SP and NBSP. *)
Definition isWhiteSpace (c : ascii) : bool :=
  let n := code c in between 9 13 n || (n =? 32) || (n =? 160).

(** Lower-casing of one code unit: [A-Z], and the Latin-1 capitals
    U+00C0..U+00DE without the multiplication sign U+00D7. *)
Definition toLowerChar (c : ascii) : ascii :=
  let n := code c in
  if between 65 90 n || (between 192 222 n && negb (n =? 215))
  then ascii_of_N (Z.to_N (n + 32))
  else c.

(** ** Numbers *)

(** [Int z] is the number [parseInt] returns for digits that write [z]:
    [z] itself up to [2^53], the double nearest to [z] beyond.  The
    operations below compute with [z]; see [exactRange] and [Double] for
    where that is the arithmetic of the code. *)
Inductive number : Type :=
  | NaN : number
  | Int : Z -> number.

Definition isNaN (x : number) : bool :=
  match x with NaN => true | Int _ => false end.

(** [Math.floor(x / d)] for a positive integer literal [d]. *)
Definition floorDiv (x : number) (d : Z) : number :=
  match x with NaN => NaN | Int z => Int (z / d) end.

Definition mul (x : number) (k : Z) : number :=
  match x with NaN => NaN | Int z => Int (z * k) end.

Definition add (x : number) (k : Z) : number :=
  match x with NaN => NaN | Int z => Int (z + k) end.

(** [x >= y] and [x <= y]: false as soon as one side is [NaN]. *)
Definition ge (x y : number) : bool :=
  match x, y with Int a, Int b => b <=? a | _, _ => false end.

Definition le (x y : number) : bool :=
  match x, y with Int a, Int b => a <=? b | _, _ => false end.

(** [x || d] on numbers: [NaN] and [0] are falsy. *)
Definition orDefault (x : number) (d : Z) : number :=
  match x with
  | NaN => Int d
  | Int z => if z =? 0 then Int d else Int z
  end.

(** ** Strings *)

(** [!s]: the empty string is the only falsy string. *)
Definition falsy (s : string) : bool :=
  match s with EmptyString => true | String _ _ => false end.

(** [s || ''] on a string. *)
Definition orEmpty (s : string) : string := if falsy s then "" else s.

(** [s.split(sep)] for a one-character separator: never an empty array,
    [''.split(sep)] is [['']]. *)
Fixpoint split (sep : ascii) (s : string) : list string :=
  match s with
  | EmptyString => [EmptyString]
  | String c rest =>
      if Ascii.eqb c sep then EmptyString :: split sep rest
      else match split sep rest with
           | [] => [String c EmptyString]
           | p :: ps => String c p :: ps
           end
  end.

(** [s.toLowerCase()] *)
Fixpoint toLowerCase (s : string) : string :=
  match s with
  | EmptyString => EmptyString
  | String c rest => String (toLowerChar c) (toLowerCase rest)
  end.

(** [s.replace(/([A-Z])/g, ' $1')]: a space in front of every capital,
    the first character included. *)
Fixpoint spaceBeforeCapitals (s : string) : string :=
  match s with
  | EmptyString => EmptyString
  | String c rest =>
      if isUpperAZ c then String " " (String c (spaceBeforeCapitals rest))
      else String c (spaceBeforeCapitals rest)
  end.

Fixpoint trimStart (s : string) : string :=
  match s with
  | EmptyString => EmptyString
  | String c rest => if isWhiteSpace c then trimStart rest else s
  end.

Fixpoint trimEnd (s : string) : string :=
  match s with
  | EmptyString => EmptyString
  | String c rest =>
      let rest' := trimEnd rest in
      if isWhiteSpace c && falsy rest' then EmptyString else String c rest'
  end.

(** [s.trim()] *)
Definition trim (s : string) : string := trimEnd (trimStart s).

(** [s.startsWith(p)] *)
Fixpoint startsWith (s p : string) : bool :=
  match p, s with
  | EmptyString, _ => true
  | String _ _, EmptyString => false
  | String a p', String b s' => Ascii.eqb a b && startsWith s' p'
  end.

(** [s.includes(t)]: [t] occurs at some position of [s]. *)
Fixpoint includes (s t : string) : bool :=
  startsWith s t ||
  match s with
  | EmptyString => false
  | String _ rest => includes rest t
  end.

(** ** [parseInt(s)] with no radix argument *)

(** Value of a digit in any radix up to 36. *)
Definition digitValue (c : ascii) : option Z :=
  let n := code c in
  if between 48 57 n then Some (n - 48)
  else if between 97 122 n then Some (n - 87)
  else if between 65 90 n then Some (n - 55)
  else None.

Definition radixDigit (R : Z) (c : ascii) : option Z :=
  match digitValue c with
  | Some d => if d <? R then Some d else None
  | None => None
  end.

(** The longest prefix of radix-[R] digits, accumulated most significant
    digit first; [acc] is [NaN] until a digit has been read. *)
Fixpoint parseDigits (R : Z) (s : string) (acc : number) : number :=
  match s with
  | EmptyString => acc
  | String c rest =>
      match radixDigit R c with
      | Some d =>
          parseDigits R rest
            (Int (match acc with NaN => d | Int a => a * R + d end))
      | None => acc
      end
  end.

Definition stripSign (s : string) : Z * string :=
  match s with
  | String "-" rest => (-1, rest)
  | String "+" rest => (1, rest)
  | _ => (1, s)
  end.

Definition stripHexPrefix (s : string) : Z * string :=
  match s with
  | String "0" (String "x" rest) => (16, rest)
  | String "0" (String "X" rest) => (16, rest)
  | _ => (10, s)
  end.

(** Leading white space is skipped, then an optional sign, then an
    optional [0x]/[0X] that switches to radix 16; the digits that follow
    are read as far as they go and [NaN] is the answer when there is
    none.  [-0] is not told apart from [0].  The result is the integer the
    digits write; the code holds it as a double ([Double.ofNumber]). *)
Definition parseInt (s : string) : number :=
  let '(sign, s1) := stripSign (trimStart s) in
  let '(R, s2) := stripHexPrefix s1 in
  mul (parseDigits R s2 NaN) sign.

(** ** Completions: a value or a thrown error *)

Inductive completion (A : Type) : Type :=
  | Return : A -> completion A
  | Throw : string -> completion A.

Arguments Return {A} _.
Arguments Throw {A} _.

(** [try { body } catch (error) { handler }] *)
Definition tryCatch {A} (body : completion A) (handler : string -> completion A)
  : completion A :=
  match body with
  | Return a => Return a
  | Throw e => handler e
  end.

(** Array destructuring [const [a, b, c, d, e] = xs]: a missing element is
    [undefined], here [None]. *)
Definition destructure5 (xs : list string)
  : option string * option string * option string * option string * option string :=
  (nth_error xs 0, nth_error xs 1, nth_error xs 2, nth_error xs 3, nth_error xs 4).

(** [!x] where [x] is a string or [undefined]. *)
Definition falsyOpt (x : option string) : bool :=
  match x with None => true | Some s => falsy s end.

(** Method call on a value that may be [undefined]: a [TypeError] then. *)
Definition deref {A} (x : option string) (k : string -> completion A) : completion A :=
  match x with
  | Some s => k s
  | None => Throw "TypeError"
  end.

End JS.

Import JS.

(* ===================================================================== *)
(** * The page *)
(* ===================================================================== *)

(** [interface Logo] *)
Module Logo.
Record t : Type := mk {
  id : Z;
  name : string;
  year : number;
  color : string;
  type : string;
  imageUrl : string;
  source : string
}.
End Logo.

(** The [filters] state, [{ color: '', type: '' }] initially. *)
Module Filters.
Record t : Type := mk {
  color : string;
  type : string
}.
Definition initial : t := mk "" "".
End Filters.

(** The record both [catch] blocks and the partial guard return. *)
Definition fallbackLogo (id : Z) : Logo.t :=
  {| Logo.id := id;
     Logo.name := "Invalid Logo";
     Logo.year := Int 2000;
     Logo.color := "black";
     Logo.type := "serif";
     Logo.imageUrl := "/logos/default.png";
     Logo.source := "https://example.com" |}.

(** The object literal of the success path, shared by all variants. *)
Definition logoOfParts (filename : string) (id : Z)
    (name color source type year : string) : Logo.t :=
  {| Logo.id := id;
     Logo.name := trim (spaceBeforeCapitals name);
     Logo.year := orDefault (parseInt year) 2000;
     Logo.color := toLowerCase (orEmpty color);
     Logo.type := toLowerCase (orEmpty type);
     Logo.imageUrl := "/logos/" ++ filename;
     Logo.source := if startsWith source "www" then "https://" ++ source else source |}.

(** [filename.split('.')[0]] *)
Definition withoutExtension (filename : string) : option string :=
  nth_error (split "." filename) 0.

(** The [try] block of [parseLogoFromFilename]. *)
Definition parseLogoFromFilename_try (filename : string) (id : Z) : completion Logo.t :=
  if falsy filename then Throw "Filename is required" else
  deref (withoutExtension filename) (fun withoutExtension =>
  let parts := split "|" withoutExtension in
  if negb (Nat.eqb (List.length parts) 5) then Throw "Invalid filename format" else
  let '(name, color, source, type, year) := destructure5 parts in
  if falsyOpt name || falsyOpt color || falsyOpt source || falsyOpt type || falsyOpt year
  then Throw "Missing required parts in filename" else
  deref name (fun name =>
  deref color (fun color =>
  deref source (fun source =>
  deref type (fun type =>
  deref year (fun year =>
  Return (logoOfParts filename id name color source type year))))))).

(** [function parseLogoFromFilename(filename, id)]: the [catch] block logs
    and returns the fallback record. *)
Definition parseLogoFromFilename (filename : string) (id : Z) : completion Logo.t :=
  tryCatch (parseLogoFromFilename_try filename id)
           (fun _ => Return (fallbackLogo id)).

(** [const isInDecade = (year, searchYear) => ...] *)
Definition isInDecade (year searchYear : number) : bool :=
  let decadeStart := mul (floorDiv searchYear 10) 10 in
  let decadeEnd := add decadeStart 9 in
  ge year decadeStart && le year decadeEnd.

(** [yearMatch] of the filter callback. *)
Definition yearMatch (searchTerm : string) (logo : Logo.t) : bool :=
  let searchYear := parseInt searchTerm in
  if negb (isNaN searchYear) then isInDecade (Logo.year logo) searchYear else false.

Definition matchesSearch (searchTerm : string) (logo : Logo.t) : bool :=
  let searchLower := toLowerCase (orEmpty searchTerm) in
  includes (toLowerCase (orEmpty (Logo.name logo))) searchLower
  || yearMatch searchTerm logo.

Definition matchesColor (filters : Filters.t) (logo : Logo.t) : bool :=
  falsy (Filters.color filters) || String.eqb (Logo.color logo) (Filters.color filters).

Definition matchesType (filters : Filters.t) (logo : Logo.t) : bool :=
  falsy (Filters.type filters) || String.eqb (Logo.type logo) (Filters.type filters).

(** The callback handed to [logos.filter].  Nothing in its body throws on
    strings and numbers, so its [catch] branch is never taken. *)
Definition matchesLogo (searchTerm : string) (filters : Filters.t) (logo : Logo.t) : bool :=
  matchesSearch searchTerm logo && matchesColor filters logo && matchesType filters logo.

(** [filteredLogos] *)
Definition filteredLogos (searchTerm : string) (filters : Filters.t)
    (logos : list Logo.t) : list Logo.t :=
  List.filter (matchesLogo searchTerm filters) logos.

(** [logos]: the catalogue parsed with 1-based positions.  A throwing
    parse would make the whole [useMemo] return the empty list. *)
Fixpoint parseAll (filenames : list string) (index : Z) : completion (list Logo.t) :=
  match filenames with
  | [] => Return []
  | f :: fs =>
      match parseLogoFromFilename f (index + 1) with
      | Throw e => Throw e
      | Return l =>
          match parseAll fs (index + 1) with
          | Throw e => Throw e
          | Return ls => Return (l :: ls)
          end
      end
  end.

Definition logoFilenames : list string :=
  [ "BarcelonaArchives|Blue|www.arxiu.barcelona|Serif|1922.png";
    "CatalunyaRadio|Red|www.ccma.cat|SansSerif|1983.png" ].

(** ** The selectors *)

(** [handleColorSelect]: the value handed to [onColorSelect]. *)
Definition handleColorSelect (selectedColor colorId : string) : string :=
  let safeSelectedColor := orEmpty selectedColor in
  if String.eqb safeSelectedColor colorId then "" else colorId.

(** [handleTypeSelect]: the value handed to [onSelect]. *)
Definition handleTypeSelect (selected type : string) : string :=
  let safeSelected := orEmpty selected in
  if String.eqb safeSelected type then "" else type.

(** [onColorSelect={(color) => setFilters({ ...filters, color })}] after a
    click on the button [colorId]. *)
Definition clickColor (filters : Filters.t) (colorId : string) : Filters.t :=
  {| Filters.color := handleColorSelect (Filters.color filters) colorId;
     Filters.type := Filters.type filters |}.

(** [onSelect={(type) => setFilters({ ...filters, type })}] after a click
    on the button [type]. *)
Definition clickType (filters : Filters.t) (type : string) : Filters.t :=
  {| Filters.color := Filters.color filters;
     Filters.type := handleTypeSelect (Filters.type filters) type |}.

(** The buttons the two selectors render. *)
Definition colorButtons : list string := ["blue"; "red"; "black"; "white"].
Definition typeButtons : list string := ["serif"; "sans-serif"].

(** What a user can do to the filters: click one of the rendered buttons. *)
Inductive click : Type :=
  | ClickColor (colorId : string) (rendered : In colorId colorButtons)
  | ClickType (type : string) (rendered : In type typeButtons).

Definition applyClick (filters : Filters.t) (c : click) : Filters.t :=
  match c with
  | ClickColor colorId _ => clickColor filters colorId
  | ClickType type _ => clickType filters type
  end.

(** The filter states a session can reach from the initial one. *)
Definition reachable (filters : Filters.t) : Prop :=
  exists clicks : list click, filters = fold_left applyClick clicks Filters.initial.

(** ** The partial-guard variant of [src/app/page.tsx] *)

Module PageTsx.

(** No length check: the first five parts are taken, whatever follows. *)
Definition parseLogoFromFilename_try (filename : string) (id : Z) : completion Logo.t :=
  deref (withoutExtension filename) (fun withoutExtension =>
  let '(name, color, source, type, year) := destructure5 (split "|" withoutExtension) in
  if falsyOpt name || falsyOpt color || falsyOpt source || falsyOpt type || falsyOpt year
  then Return (fallbackLogo id) else
  deref name (fun name =>
  deref color (fun color =>
  deref source (fun source =>
  deref type (fun type =>
  deref year (fun year =>
  Return {| Logo.id := id;
            Logo.name := trim (spaceBeforeCapitals name);
            Logo.year := orDefault (parseInt year) 2000;
            Logo.color := toLowerCase color;
            Logo.type := toLowerCase type;
            Logo.imageUrl := "/logos/" ++ filename;
            Logo.source := if startsWith source "www"
                           then "https://" ++ source else source |})))))).

Definition errorLogo (id : Z) : Logo.t :=
  {| Logo.id := id;
     Logo.name := "Error Loading Logo";
     Logo.year := Int 2000;
     Logo.color := "black";
     Logo.type := "serif";
     Logo.imageUrl := "/logos/default.png";
     Logo.source := "https://example.com" |}.

Definition parseLogoFromFilename (filename : string) (id : Z) : completion Logo.t :=
  tryCatch (parseLogoFromFilename_try filename id)
           (fun _ => Return (errorLogo id)).

End PageTsx.

(* ===================================================================== *)
(** * Notions the statements are written with *)
(* ===================================================================== *)

(** The parts the parser looks at: the string before the first dot, cut at
    the pipes. *)
Definition parts (filename : string) : list string :=
  match withoutExtension filename with
  | Some w => split "|" w
  | None => []
  end.

(** The three ways an identifier is malformed. *)
Definition Malformed (filename : string) : Prop :=
  filename = "" \/ List.length (parts filename) <> 5%nat \/ In "" (parts filename).

(** Five parts, none of them empty. *)
Definition WellFormed (filename : string) (name color source type year : string) : Prop :=
  parts filename = [name; color; source; type; year] /\
  name <> "" /\ color <> "" /\ source <> "" /\ type <> "" /\ year <> "".

(** The fields of the fallback record the specification lists. *)
Definition isFallbackRecord (logo : Logo.t) (position : Z) : Prop :=
  Logo.id logo = position /\
  Logo.name logo = "Invalid Logo" /\
  Logo.year logo = Int 2000 /\
  Logo.color logo = "black" /\
  Logo.type logo = "serif" /\
  Logo.imageUrl logo = "/logos/default.png".

(** ** Scenario A *)

Definition scenarioA : string :=
  "BarcelonaArchives|Blue|www.arxiu.barcelona|Serif|1922.png".

(** The record the catalogue comment ([Name|Color|Website|Type|Year.png])
    promises for the first entry. *)
Definition scenarioA_expected : Logo.t :=
  {| Logo.id := 1;
     Logo.name := "Barcelona Archives";
     Logo.year := Int 1922;
     Logo.color := "blue";
     Logo.type := "serif";
     Logo.imageUrl := "/logos/BarcelonaArchives|Blue|www.arxiu.barcelona|Serif|1922.png";
     Logo.source := "https://www.arxiu.barcelona" |}.

(** The year rule as the specification words it, at one identifier: the year
    is the integer parsed from field 5, and it is 2000 exactly when field
    5 does not parse. *)
Definition year_is_parsed_integer (filename : string) (id : Z) : Prop :=
  forall name color source type year logo,
    WellFormed filename name color source type year ->
    parseLogoFromFilename filename id = Return logo ->
    (forall z, parseInt year = Int z -> Logo.year logo = Int z) /\
    (Logo.year logo = Int 2000 <-> parseInt year = NaN).

(** [t] occurs in [s]. *)
Definition isSubstringOf (t s : string) : Prop :=
  exists pre post, s = pre ++ t ++ post.

(** [y] lies in the decade of [s]. *)
Definition inDecadeOf (y s : Z) : Prop :=
  (s / 10) * 10 <= y <= (s / 10) * 10 + 9.

(** Whatever is clicked, the type filter is unset or one of the two
    button values. *)
Definition typeInVocabulary (filters : Filters.t) : Prop :=
  Filters.type filters = "" \/ In (Filters.type filters) typeButtons.

(** One of [0]..[9]. *)
Definition isDecimalDigit (c : ascii) : bool := between 48 57 (code c).

Fixpoint allDecimal (s : string) : bool :=
  match s with
  | EmptyString => true
  | String c rest => isDecimalDigit c && allDecimal rest
  end.

Definition startsWithDecimal (s : string) : bool :=
  match s with
  | EmptyString => false
  | String c _ => isDecimalDigit c
  end.

(** The integer a string of decimal digits writes. *)
Fixpoint decimalValueFrom (acc : Z) (digits : string) : Z :=
  match digits with
  | EmptyString => acc
  | String c rest => decimalValueFrom (acc * 10 + (code c - 48)) rest
  end.

Definition decimalValue (digits : string) : Z := decimalValueFrom 0 digits.

(** [s] does not begin with a radix-[R] digit. *)
Definition noLeadingDigit (R : Z) (s : string) : Prop :=
  match s with
  | EmptyString => True
  | String c _ => radixDigit R c = None
  end.

(** The numeric-prefix rule as worded, at one search term: leading decimal digits
    followed by something that is no digit switch the year branch on, with
    the integer the digits write. *)
Definition numeric_prefix_activates (searchTerm : string) : Prop :=
  forall digits rest,
    searchTerm = digits ++ rest ->
    digits <> "" -> allDecimal digits = true ->
    rest <> "" -> startsWithDecimal rest = false ->
    isNaN (parseInt searchTerm) = false /\
    forall logo, yearMatch searchTerm logo =
                 isInDecade (Logo.year logo) (Int (decimalValue digits)).

(* ===================================================================== *)
(** * The rest of the page *)
(* ===================================================================== *)

(** ** The no-guard variant declared inside [Page] in [src/app/page.tsx] *)

Module NoGuard.

(** [parseInt(x)] on a value that may be [undefined]: the argument is
    first turned into a string, ["undefined"] for [undefined]. *)
Definition parseIntArg (x : option string) : number :=
  parseInt (match x with Some s => s | None => "undefined" end).

(** No [try], no check: the object literal is evaluated field by field
    and a method call on a missing part throws. *)
Definition parseLogoFromFilename (filename : string) (id : Z) : completion Logo.t :=
  deref (withoutExtension filename) (fun withoutExtension =>
  let '(name, color, source, type, year) := destructure5 (split "|" withoutExtension) in
  deref name (fun name =>
  let year := parseIntArg year in
  deref color (fun color =>
  deref type (fun type =>
  deref source (fun source =>
  Return {| Logo.id := id;
            Logo.name := trim (spaceBeforeCapitals name);
            Logo.year := year;
            Logo.color := toLowerCase color;
            Logo.type := toLowerCase type;
            Logo.imageUrl := "/logos/" ++ filename;
            Logo.source := if startsWith source "www"
                           then "https://" ++ source else source |}))))).

End NoGuard.

(** ** [LogoCard]: what the card prints *)

(** A JSX child that is a string or a number. *)
Inductive rendered : Type :=
  | Text : string -> rendered
  | Num : number -> rendered.

(** [{logo.year || 'Year unknown'}] *)
Definition displayYear (logo : Logo.t) : rendered :=
  match Logo.year logo with
  | NaN => Text "Year unknown"
  | Int z => if z =? 0 then Text "Year unknown" else Num (Int z)
  end.

(** [{logo.type || 'Type unknown'}] *)
Definition displayType (logo : Logo.t) : string :=
  if falsy (Logo.type logo) then "Type unknown" else Logo.type logo.

(** [{logo.name || 'Unnamed Logo'}] *)
Definition displayName (logo : Logo.t) : string :=
  if falsy (Logo.name logo) then "Unnamed Logo" else Logo.name logo.

(** [{logo.source && (<a ...>)}]: is the link rendered? *)
Definition showsSourceLink (logo : Logo.t) : bool := negb (falsy (Logo.source logo)).

(** ** [SearchBar] *)

Module SearchBar.

(** The two pieces of state and, oldest last, the terms handed to
    [onSearch]. *)
Record t : Type := mk {
  isExpanded : bool;
  searchValue : string;
  sent : list string
}.

Definition initial : t := mk false "" [].

Inductive event : Type :=
  | Change (value : string)
  | Focus
  | Blur
  | ClearClick.

(** The clear button is rendered under [{searchValue && ...}]. *)
Definition clearButtonShown (st : t) : bool := negb (falsy (searchValue st)).

(** One event; [None] for a click on a button that is not rendered. *)
Definition step (st : t) (e : event) : option t :=
  match e with
  | Change value =>
      let value := orEmpty value in
      Some (mk (isExpanded st) value (value :: sent st))
  | Focus => Some (mk true (searchValue st) (sent st))
  | Blur =>
      if falsy (searchValue st)
      then Some (mk false (searchValue st) (sent st))
      else Some st
  | ClearClick =>
      if clearButtonShown st then Some (mk false "" ("" :: sent st)) else None
  end.

Fixpoint run (st : t) (events : list event) : option t :=
  match events with
  | [] => Some st
  | e :: rest =>
      match step st e with
      | Some st' => run st' rest
      | None => None
      end
  end.

(** The term the search box last handed over; the viewer's [searchTerm]
    starts as [''] too. *)
Definition lastSent (st : t) : string :=
  match sent st with
  | [] => ""
  | term :: _ => term
  end.

End SearchBar.

(** ** Notions for the statements about the rest of the page *)

(** No occurrence of [c] in [s]. *)
Fixpoint noChar (c : ascii) (s : string) : bool :=
  match s with
  | EmptyString => true
  | String a rest => negb (Ascii.eqb a c) && noChar c rest
  end.

(** Number of occurrences of [c] in [s]. *)
Fixpoint countChar (c : ascii) (s : string) : nat :=
  match s with
  | EmptyString => O
  | String a rest => if Ascii.eqb a c then S (countChar c rest) else countChar c rest
  end.

(** [s] with its white space deleted. *)
Fixpoint removeWhite (s : string) : string :=
  match s with
  | EmptyString => EmptyString
  | String c rest =>
      if isWhiteSpace c then removeWhite rest else String c (removeWhite rest)
  end.

Definition startsWithWhite (s : string) : bool :=
  match s with
  | EmptyString => false
  | String c _ => isWhiteSpace c
  end.

Fixpoint endsWithWhite (s : string) : bool :=
  match s with
  | EmptyString => false
  | String c EmptyString => isWhiteSpace c
  | String _ rest => endsWithWhite rest
  end.

Fixpoint allWhite (s : string) : bool :=
  match s with
  | EmptyString => true
  | String c rest => isWhiteSpace c && allWhite rest
  end.

(** Two records that differ at most in their image path. *)
Definition sameButImage (a b : Logo.t) : Prop :=
  Logo.id a = Logo.id b /\ Logo.name a = Logo.name b /\
  Logo.year a = Logo.year b /\ Logo.color a = Logo.color b /\
  Logo.type a = Logo.type b /\ Logo.source a = Logo.source b.

(** The color filter is unset or one of the four button values. *)
Definition colorInVocabulary (filters : Filters.t) : Prop :=
  Filters.color filters = "" \/ In (Filters.color filters) colorButtons.

(** The events of the search box that call [onSearch]. *)
Definition callsOnSearch (e : SearchBar.event) : bool :=
  match e with
  | SearchBar.Change _ | SearchBar.ClearClick => true
  | SearchBar.Focus | SearchBar.Blur => false
  end.

(** What either guarded parser answers, read off the parts. *)
Definition recordOfParts (filename : string) (id : Z) (ps : list string) : Logo.t :=
  match ps with
  | [name; color; source; type; year] =>
      if falsy name || falsy color || falsy source || falsy type || falsy year
      then fallbackLogo id
      else logoOfParts filename id name color source type year
  | _ => fallbackLogo id
  end.

(* ===================================================================== *)
(** * Numbers as doubles *)
(* ===================================================================== *)

(** The page's numbers are IEEE-754 binary64 values.  [JS.number] and the
    arithmetic of [JS] compute with the integers themselves, which is what
    the doubles do as long as every value that occurs is an integer of
    absolute value below [2^53 - 9]: the quotient by ten then has the same
    floor, and the decade's bounds are integers that a double holds
    exactly.  The statements that depend on the arithmetic are made for
    that range. *)
Definition exactRange (z : Z) : Prop :=
  - 9007199254740983 < z < 9007199254740983.

Definition exactNumber (x : number) : Prop :=
  match x with
  | NaN => True
  | Int z => exactRange z
  end.

(** Beyond that range [Int z] stands for the double nearest to [z], and
    the decade test is computed here in binary64 itself, with the
    operations of [SpecFloat]. *)
Module Double.

Definition prec : Z := 53.
Definition emax : Z := 1024.

Definition t : Type := spec_float.

(** The double nearest to an integer, ties to even, infinite beyond the
    largest double. *)
Definition ofZ (z : Z) : t := binary_normalize prec emax z 0 false.

(** The double a [JS.number] stands for: what [parseInt] returns for the
    integer its digits write. *)
Definition ofNumber (x : number) : t :=
  match x with
  | NaN => S754_nan
  | Int z => ofZ z
  end.

(** The integer a double is, when it is one. *)
Definition toZ (x : t) : option Z :=
  match x with
  | S754_zero _ => Some 0
  | S754_finite s m e =>
      if 0 <=? e then Some (cond_Zopp s (Z.shiftl (Zpos m) e))
      else if Z.land (Zpos m) (Z.ones (- e)) =? 0
           then Some (cond_Zopp s (Z.shiftr (Zpos m) (- e)))
           else None
  | _ => None
  end.

Definition isNaN (x : t) : bool :=
  match x with S754_nan => true | _ => false end.

Definition div (x y : t) : t := SFdiv prec emax x y.
Definition mul (x y : t) : t := SFmul prec emax x y.
Definition add (x y : t) : t := SFadd prec emax x y.

(** [Math.floor] *)
Definition floor (x : t) : t :=
  match x with
  | S754_finite s m e =>
      if 0 <=? e then x
      else match Z.shiftr (cond_Zopp s (Zpos m)) (- e) with
           | Z0 => S754_zero s
           | z => ofZ z
           end
  | _ => x
  end.

Definition ge (x y : t) : bool := SFleb y x.
Definition le (x y : t) : bool := SFleb x y.

(** [isInDecade], operation by operation. *)
Definition isInDecade (year searchYear : t) : bool :=
  let decadeStart := mul (floor (div searchYear (ofZ 10))) (ofZ 10) in
  let decadeEnd := add decadeStart (ofZ 9) in
  ge year decadeStart && le year decadeEnd.

Definition yearMatch (searchTerm : string) (logo : Logo.t) : bool :=
  let searchYear := ofNumber (parseInt searchTerm) in
  if negb (isNaN searchYear)
  then isInDecade (ofNumber (Logo.year logo)) searchYear
  else false.

Definition matchesLogo (searchTerm : string) (filters : Filters.t) (logo : Logo.t) : bool :=
  (includes (toLowerCase (orEmpty (Logo.name logo))) (toLowerCase (orEmpty searchTerm))
   || yearMatch searchTerm logo)
  && matchesColor filters logo && matchesType filters logo.

Definition filteredLogos (searchTerm : string) (filters : Filters.t)
    (logos : list Logo.t) : list Logo.t :=
  List.filter (matchesLogo searchTerm filters) logos.

End Double.

(** The matching rule of the specification for one record: the text/year
    predicate, the color predicate and the type predicate. *)
Definition matchingRule (searchTerm : string) (filters : Filters.t) (logo : Logo.t) : Prop :=
  (isSubstringOf (toLowerCase searchTerm) (toLowerCase (Logo.name logo)) \/
   exists s y, parseInt searchTerm = Int s /\ Logo.year logo = Int y /\
               (s / 10) * 10 <= y <= (s / 10) * 10 + 9) /\
  (Filters.color filters = "" \/ Logo.color logo = Filters.color filters) /\
  (Filters.type filters = "" \/ Logo.type logo = Filters.type filters).

(** A record whose year field is an integer that a double holds exactly,
    eight above [2^53]. *)
Definition farFutureLogo : Logo.t :=
  logoOfParts "Acme|Blue|acme|Serif|9007199254741000.png" 1
              "Acme" "Blue" "acme" "Serif" "9007199254741000".

(** The value of an optional sign. *)
Definition signValue (sign : string) : option Z :=
  match sign with
  | EmptyString => Some 1
  | String "+" EmptyString => Some 1
  | String "-" EmptyString => Some (-1)
  | _ => None
  end.

(* ===================================================================== *)
(** * The primitives at work *)
(* ===================================================================== *)

Example split_pipe : split "|" "a|b||c" = ["a"; "b"; ""; "c"].
Proof. reflexivity. Qed.

Example parseInt_examples :
  parseInt "1922" = Int 1922 /\ parseInt "192a" = Int 192 /\
  parseInt "  -42px" = Int (-42) /\ parseInt "0x1F" = Int 31 /\
  parseInt "0x" = NaN /\ parseInt "abc" = NaN /\ parseInt "" = NaN.
Proof. repeat split; reflexivity. Qed.

Example trim_example :
  trim (spaceBeforeCapitals "BarcelonaArchives") = "Barcelona Archives".
Proof. reflexivity. Qed.

Example scenarioA_without_dots :
  parseLogoFromFilename "BarcelonaArchives|Blue|www|Serif|1922" 1 =
  Return {| Logo.id := 1; Logo.name := "Barcelona Archives"; Logo.year := Int 1922;
            Logo.color := "blue"; Logo.type := "serif";
            Logo.imageUrl := "/logos/BarcelonaArchives|Blue|www|Serif|1922";
            Logo.source := "https://www" |}.
Proof. reflexivity. Qed.

(* ===================================================================== *)
(** * Facts about the primitives *)
(* ===================================================================== *)

Section StringFacts.

Lemma falsy_true (s : string) : falsy s = true <-> s = "".
Proof. destruct s; simpl; split; intros H; congruence. Qed.

Lemma falsy_false (s : string) : falsy s = false <-> s <> "".
Proof. destruct s; simpl; split; intros H; congruence. Qed.

Lemma orEmpty_id (s : string) : orEmpty s = s.
Proof. destruct s; reflexivity. Qed.

Lemma split_not_nil (sep : ascii) (s : string) : split sep s <> [].
Proof.
  destruct s as [|c rest]; simpl; [discriminate|].
  destruct (Ascii.eqb c sep); [discriminate|].
  destruct (split sep rest); discriminate.
Qed.

Lemma withoutExtension_defined (filename : string) :
  exists w, withoutExtension filename = Some w.
Proof.
  unfold withoutExtension.
  destruct (split "." filename) as [|w ws] eqn:E.
  - now apply split_not_nil in E.
  - now exists w.
Qed.

Lemma startsWith_spec (s p : string) :
  startsWith s p = true <-> exists post, s = p ++ post.
Proof.
  revert s; induction p as [|a p IH]; intros s; simpl.
  - split; [intros _; now exists s | intros _; now destruct s].
  - destruct s as [|b s]; simpl.
    + split; [discriminate | intros [post H]; discriminate].
    + rewrite andb_true_iff, Ascii.eqb_eq, IH. split.
      * intros [-> [post ->]]. now exists post.
      * intros [post H]. injection H as -> ->. split; [reflexivity | now exists post].
Qed.

Lemma includes_spec (s t : string) :
  includes s t = true <-> exists pre post, s = pre ++ t ++ post.
Proof.
  induction s as [|c s IH]; cbn [includes].
  - rewrite orb_false_r, startsWith_spec. split.
    + intros [post H]. now exists "", post.
    + intros [[|c pre] [post H]]; [now exists post | discriminate].
  - rewrite orb_true_iff, IH, startsWith_spec. split.
    + intros [[post H] | [pre [post H]]].
      * now exists "", post.
      * exists (String c pre), post. simpl. now rewrite H.
    + intros [[|c' pre] [post H]].
      * left. now exists post.
      * right. simpl in H. injection H as _ H. now exists pre, post.
Qed.

Lemma includes_empty (s : string) : includes s "" = true.
Proof. destruct s; reflexivity. Qed.

End StringFacts.

(* ===================================================================== *)
(** * The parser *)
(* ===================================================================== *)

Section Parser.

Variables (filename : string) (id : Z).

Lemma parts_of_empty : parts "" = [""].
Proof. reflexivity. Qed.

Lemma wellformed_not_empty name color source type year :
  WellFormed filename name color source type year -> filename <> "".
Proof. intros [H _] ->. discriminate H. Qed.

Lemma malformed_or_wellformed :
  Malformed filename \/
  exists name color source type year, WellFormed filename name color source type year.
Proof.
  unfold Malformed, WellFormed.
  destruct (parts filename) as [|n [|c [|s [|t [|y [|x l]]]]]];
    try (left; right; left; simpl; lia).
  destruct n as [|? ?]; [left; right; right; simpl; tauto|].
  destruct c as [|? ?]; [left; right; right; simpl; tauto|].
  destruct s as [|? ?]; [left; right; right; simpl; tauto|].
  destruct t as [|? ?]; [left; right; right; simpl; tauto|].
  destruct y as [|? ?]; [left; right; right; simpl; tauto|].
  right. do 5 eexists. repeat split; discriminate.
Qed.

Lemma wellformed_not_malformed name color source type year :
  WellFormed filename name color source type year -> ~ Malformed filename.
Proof.
  intros W [E | [L | I]].
  - now apply (wellformed_not_empty _ _ _ _ _ W).
  - destruct W as [P _]. rewrite P in L. now apply L.
  - destruct W as [P (Hn & Hc & Hs & Ht & Hy)]. rewrite P in I. simpl in I.
    intuition congruence.
Qed.

(** On five non-empty parts the [try] block reaches its [return]. *)
Lemma try_wellformed name color source type year :
  WellFormed filename name color source type year ->
  parseLogoFromFilename_try filename id =
  Return (logoOfParts filename id name color source type year).
Proof.
  intros W. pose proof (wellformed_not_empty _ _ _ _ _ W) as NE.
  destruct W as [P (Hn & Hc & Hs & Ht & Hy)].
  unfold parseLogoFromFilename_try, parts in *.
  apply falsy_false in NE. rewrite NE.
  destruct (withoutExtension filename) as [w|]; [|discriminate P].
  simpl. rewrite P. simpl.
  apply falsy_false in Hn, Hc, Hs, Ht, Hy.
  now rewrite Hn, Hc, Hs, Ht, Hy.
Qed.

(** On a malformed identifier one of the three [throw]s is reached. *)
Lemma try_malformed :
  Malformed filename -> exists e, parseLogoFromFilename_try filename id = Throw e.
Proof.
  unfold Malformed, parseLogoFromFilename_try, parts.
  destruct (falsy filename) eqn:F; [intros _; eauto|].
  destruct (withoutExtension_defined filename) as [w ->]. simpl.
  intros [E | [L | I]].
  - apply falsy_false in F. contradiction.
  - destruct (Nat.eqb_spec (List.length (split "|" w)) 5); [contradiction|]. simpl. eauto.
  - destruct (Nat.eqb (List.length (split "|" w)) 5) eqn:L; cbn [negb]; [|eauto].
    apply Nat.eqb_eq in L.
    destruct (split "|" w) as [|n [|c [|s [|t [|y [|x l]]]]]]; try discriminate L.
    simpl in I. cbn [destructure5 nth_error falsyOpt].
    assert (falsy n || falsy c || falsy s || falsy t || falsy y = true) as ->.
    { rewrite !orb_true_iff, !falsy_true. intuition auto. }
    eauto.
Qed.

Lemma parse_wellformed name color source type year :
  WellFormed filename name color source type year ->
  parseLogoFromFilename filename id =
  Return (logoOfParts filename id name color source type year).
Proof.
  intros W. unfold parseLogoFromFilename. now rewrite (try_wellformed _ _ _ _ _ W).
Qed.

Lemma parse_malformed :
  Malformed filename -> parseLogoFromFilename filename id = Return (fallbackLogo id).
Proof.
  intros M. unfold parseLogoFromFilename.
  destruct (try_malformed M) as [e ->]. reflexivity.
Qed.

(** The success record carries the identifier in its image path, and no
    identifier with five parts is ["default.png"]. *)
Lemma wellformed_imageUrl name color source type year :
  WellFormed filename name color source type year ->
  Logo.imageUrl (logoOfParts filename id name color source type year)
  <> "/logos/default.png".
Proof.
  intros [P _] E. cbn [logoOfParts Logo.imageUrl] in E.
  injection E as E. subst filename. discriminate P.
Qed.

Lemma wellformed_not_fallback name color source type year :
  WellFormed filename name color source type year ->
  logoOfParts filename id name color source type year <> fallbackLogo id.
Proof.
  intros W E. apply (wellformed_imageUrl _ _ _ _ _ W). now rewrite E.
Qed.

End Parser.

(** C1. On the first catalogue entry at position 1 the code does not
    return the Scenario A record: cutting at the first dot leaves
    [BarcelonaArchives|Blue|www], three parts instead of five, the second
    [throw] is reached and the fallback record with id 1 comes back.  The
    whole shipped catalogue parses to fallback records for the same
    reason. *)
Theorem scenarioA_falls_back :
  withoutExtension scenarioA = Some "BarcelonaArchives|Blue|www" /\
  parts scenarioA = ["BarcelonaArchives"; "Blue"; "www"] /\
  parseLogoFromFilename_try scenarioA 1 = Throw "Invalid filename format" /\
  parseLogoFromFilename scenarioA 1 = Return (fallbackLogo 1) /\
  parseLogoFromFilename scenarioA 1 <> Return scenarioA_expected /\
  parseAll logoFilenames 0 = Return [fallbackLogo 1; fallbackLogo 2].
Proof.
  repeat split; try reflexivity.
  intros E. discriminate E.
Qed.

(** C2. The parser returns the fallback record (name "Invalid Logo", year
    2000, color "black", type "serif", image "/logos/default.png") with
    [id = position] exactly on the malformed identifiers: the empty one,
    those whose extension-stripped string does not split into five parts,
    and those with an empty part; [parse("", 5)] is the fallback record
    with id 5. *)
Theorem fallback_iff_malformed :
  forall (rawIdentifier : string) (position : Z),
    ((exists logo, parseLogoFromFilename rawIdentifier position = Return logo /\
                   isFallbackRecord logo position)
     <->
     (rawIdentifier = "" \/
      List.length (parts rawIdentifier) <> 5%nat \/
      In "" (parts rawIdentifier)))
    /\ (parseLogoFromFilename rawIdentifier position = Return (fallbackLogo position)
        <->
        (rawIdentifier = "" \/
         List.length (parts rawIdentifier) <> 5%nat \/
         In "" (parts rawIdentifier)))
    /\ parseLogoFromFilename "" 5 = Return (fallbackLogo 5).
Proof.
  intros f position.
  assert (forall logo, parseLogoFromFilename f position = Return logo ->
                       Logo.imageUrl logo = "/logos/default.png" -> Malformed f) as Back.
  { intros logo H U.
    destruct (malformed_or_wellformed f) as [M | (n & c & s & t & y & W)]; [exact M|].
    rewrite (parse_wellformed f position _ _ _ _ _ W) in H.
    injection H as <-.
    now apply (wellformed_imageUrl f position _ _ _ _ _ W) in U. }
  split; [|split; [|reflexivity]]; split.
  - intros (logo & H & F). apply (Back logo H). apply F.
  - intros M. exists (fallbackLogo position).
    split; [now apply parse_malformed | repeat split].
  - intros H. now apply (Back _ H).
  - apply parse_malformed.
Qed.

(** The partial-guard variant of [page.tsx] has no length check: a sixth
    part is ignored and the identifier parses. *)
Lemma partial_guard_ignores_extra_parts :
  PageTsx.parseLogoFromFilename "Acme|Blue|acme|Serif|1950|extra" 7 =
  Return {| Logo.id := 7; Logo.name := "Acme"; Logo.year := Int 1950;
            Logo.color := "blue"; Logo.type := "serif";
            Logo.imageUrl := "/logos/Acme|Blue|acme|Serif|1950|extra";
            Logo.source := "acme" |}
  /\ parseLogoFromFilename "Acme|Blue|acme|Serif|1950|extra" 7 = Return (fallbackLogo 7).
Proof. split; reflexivity. Qed.

Lemma partial_guard_total (filename : string) (id : Z) :
  exists logo, PageTsx.parseLogoFromFilename filename id = Return logo.
Proof.
  unfold PageTsx.parseLogoFromFilename, PageTsx.parseLogoFromFilename_try.
  destruct (withoutExtension_defined filename) as [w ->]. cbn [deref].
  destruct (split "|" w) as [|n [|c [|s [|t [|y l]]]]];
    cbn [destructure5 nth_error falsyOpt orb tryCatch]; eauto;
    rewrite ?orb_true_r; cbn [tryCatch]; eauto.
  destruct (falsy n || falsy c || falsy s || falsy t || falsy y);
    cbn [deref tryCatch]; eauto.
Qed.

(** C8. The parser is total: on every string it completes normally with a
    record, never with a thrown error; the record is the fallback record
    when the identifier is malformed (empty, fewer or more than five
    parts, an empty part) and the parsed one otherwise.  The partial-guard
    variant completes normally on every string as well. *)
Theorem parser_total :
  forall (filename : string) (id : Z),
    (exists logo : Logo.t,
        parseLogoFromFilename filename id = Return logo /\
        Logo.id logo = id /\
        ((Malformed filename /\ logo = fallbackLogo id) \/
         (exists name color source type year,
             WellFormed filename name color source type year /\
             logo = logoOfParts filename id name color source type year)))
    /\ (exists logo' : Logo.t, PageTsx.parseLogoFromFilename filename id = Return logo')
    /\ parseLogoFromFilename "" id = Return (fallbackLogo id)
    /\ parseLogoFromFilename "a|b|c|d.png" id = Return (fallbackLogo id)
    /\ parseLogoFromFilename "a|b|c|d|1999|f.png" id = Return (fallbackLogo id)
    /\ parseLogoFromFilename "a||c|d|1999.png" id = Return (fallbackLogo id).
Proof.
  intros filename id. split; [|split; [apply partial_guard_total | repeat split]].
  destruct (malformed_or_wellformed filename) as [M | (n & c & s & t & y & W)].
  - exists (fallbackLogo id). split; [now apply parse_malformed|].
    split; [reflexivity | now left].
  - exists (logoOfParts filename id n c s t y).
    split; [now apply parse_wellformed|].
    split; [reflexivity | right; now exists n, c, s, t, y].
Qed.

(** C6 (as amended). On five non-empty parts the record's year is the
    integer [parseInt] reads from field 5 when that integer is not zero,
    and 2000 when field 5 does not parse or parses to zero; whatever
    field 5 holds, the record is the parsed one and not the fallback
    record. *)
Theorem year_default :
  forall (filename : string) (id : Z) (name color source type year : string),
    WellFormed filename name color source type year ->
    exists logo : Logo.t,
      parseLogoFromFilename filename id = Return logo /\
      logo <> fallbackLogo id /\
      Logo.year logo =
        match parseInt year with
        | NaN => Int 2000
        | Int z => if z =? 0 then Int 2000 else Int z
        end /\
      (parseInt year = NaN -> Logo.year logo = Int 2000) /\
      (forall z, parseInt year = Int z -> z <> 0 -> Logo.year logo = Int z) /\
      (Logo.year logo = Int 2000 <->
       parseInt year = NaN \/ parseInt year = Int 0 \/ parseInt year = Int 2000).
Proof.
  intros filename id n c s t y W.
  exists (logoOfParts filename id n c s t y).
  split; [now apply parse_wellformed|].
  split; [now apply wellformed_not_fallback|].
  cbn [logoOfParts Logo.year]. unfold orDefault.
  split; [reflexivity|]. split; [|split].
  - now intros ->.
  - intros z -> Hz. destruct (Z.eqb_spec z 0); [contradiction | reflexivity].
  - destruct (parseInt y) as [|z]; [intuition auto|].
    destruct (Z.eqb_spec z 0) as [->|Hz]; [intuition auto|].
    split.
    + intros H. now right; right.
    + intros [H | [H | H]]; [discriminate H | congruence | exact H].
Qed.

Lemma year_default_witness :
  exists logo : Logo.t,
    parseLogoFromFilename "Acme|Blue|acme|Serif|unknown.png" 3 = Return logo /\
    logo <> fallbackLogo 3 /\
    Logo.year logo = Int 2000.
Proof.
  destruct (year_default "Acme|Blue|acme|Serif|unknown.png" 3
              "Acme" "Blue" "acme" "Serif" "unknown") as (logo & P & F & Y & _).
  - unfold WellFormed. repeat split; discriminate.
  - exists logo. repeat split; assumption.
Defined.

(** Field 5 ["0"] parses as the integer 0, and the record's year is 2000. *)
Lemma year_zero_defaults :
  ~ year_is_parsed_integer "Acme|Blue|acme|Serif|0.png" 1.
Proof.
  intros H.
  destruct (H "Acme" "Blue" "acme" "Serif" "0"
              (logoOfParts "Acme|Blue|acme|Serif|0.png" 1 "Acme" "Blue" "acme" "Serif" "0"))
    as [Hz _].
  - unfold WellFormed. repeat split; discriminate.
  - reflexivity.
  - specialize (Hz 0 eq_refl). discriminate Hz.
Qed.

(* ===================================================================== *)
(** * The query engine *)
(* ===================================================================== *)

Section QueryEngine.

Lemma isInDecade_Int (y s : Z) :
  isInDecade (Int y) (Int s) = true <-> inDecadeOf y s.
Proof.
  unfold isInDecade, inDecadeOf. cbn [floorDiv mul add ge le].
  rewrite andb_true_iff, !Z.leb_le. reflexivity.
Qed.

Lemma isInDecade_NaN_l (s : number) : isInDecade NaN s = false.
Proof. reflexivity. Qed.

Lemma isInDecade_NaN_r (y : number) : isInDecade y NaN = false.
Proof. destruct y; reflexivity. Qed.

Lemma yearMatch_spec (searchTerm : string) (logo : Logo.t) :
  yearMatch searchTerm logo = true <->
  exists s y, parseInt searchTerm = Int s /\ Logo.year logo = Int y /\ inDecadeOf y s.
Proof.
  unfold yearMatch.
  destruct (parseInt searchTerm) as [|s]; cbn [isNaN negb].
  - split; [discriminate | intros (s & y & H & _); discriminate].
  - destruct (Logo.year logo) as [|y].
    + rewrite isInDecade_NaN_l.
      split; [discriminate | intros (s' & y & _ & H & _); discriminate].
    + rewrite isInDecade_Int. split.
      * intros H. now exists s, y.
      * intros (s' & y' & Hs & Hy & H). congruence.
Qed.

Lemma matchesSearch_spec (searchTerm : string) (logo : Logo.t) :
  matchesSearch searchTerm logo = true <->
  isSubstringOf (toLowerCase searchTerm) (toLowerCase (Logo.name logo)) \/
  exists s y, parseInt searchTerm = Int s /\ Logo.year logo = Int y /\ inDecadeOf y s.
Proof.
  unfold matchesSearch.
  now rewrite !orEmpty_id, orb_true_iff, includes_spec, yearMatch_spec.
Qed.

Lemma matchesColor_spec (filters : Filters.t) (logo : Logo.t) :
  matchesColor filters logo = true <->
  Filters.color filters = "" \/ Logo.color logo = Filters.color filters.
Proof. unfold matchesColor. now rewrite orb_true_iff, falsy_true, String.eqb_eq. Qed.

Lemma matchesType_spec (filters : Filters.t) (logo : Logo.t) :
  matchesType filters logo = true <->
  Filters.type filters = "" \/ Logo.type logo = Filters.type filters.
Proof. unfold matchesType. now rewrite orb_true_iff, falsy_true, String.eqb_eq. Qed.

Lemma matchesLogo_spec (searchTerm : string) (filters : Filters.t) (logo : Logo.t) :
  matchesLogo searchTerm filters logo = true <->
  (isSubstringOf (toLowerCase searchTerm) (toLowerCase (Logo.name logo)) \/
   exists s y, parseInt searchTerm = Int s /\ Logo.year logo = Int y /\ inDecadeOf y s) /\
  (Filters.color filters = "" \/ Logo.color logo = Filters.color filters) /\
  (Filters.type filters = "" \/ Logo.type logo = Filters.type filters).
Proof.
  unfold matchesLogo.
  rewrite !andb_true_iff, matchesSearch_spec, matchesColor_spec, matchesType_spec.
  tauto.
Qed.

Lemma matchesLogo_unconstrained (logo : Logo.t) :
  matchesLogo "" Filters.initial logo = true.
Proof.
  unfold matchesLogo, matchesSearch, matchesColor, matchesType.
  cbn [orEmpty falsy toLowerCase Filters.initial Filters.color Filters.type orb andb].
  now rewrite includes_empty.
Qed.

Lemma filteredLogos_sublist (searchTerm : string) (filters : Filters.t)
    (logos : list Logo.t) :
  sublist (filteredLogos searchTerm filters logos) logos.
Proof.
  unfold filteredLogos.
  induction logos as [|logo logos IH]; cbn [List.filter].
  - apply sublist_nil.
  - destruct (matchesLogo searchTerm filters logo).
    + now apply sublist_skip.
    + now apply sublist_cons.
Qed.

End QueryEngine.

(** C4 (as amended). For all integer years [y] and search years [s] of
    absolute value below [2^53 - 9], where the doubles of the code are
    the integers themselves, [isInDecade(y, s)] holds exactly when
    [floor(s/10)*10 <= y <= floor(s/10)*10 + 9], where [floor(s/10)] is the
    integer [d] with [10*d <= s < 10*d + 10]; the two bounds of the decade
    are then integers of absolute value at most [2^53], which a double
    holds exactly. *)
Theorem decade_matching :
  forall y s : Z,
    exactRange y -> exactRange s ->
    (isInDecade (Int y) (Int s) = true <->
     (s / 10) * 10 <= y <= (s / 10) * 10 + 9)
    /\ (s / 10) * 10 <= s < (s / 10) * 10 + 10
    /\ (isInDecade (Int y) (Int s) = true <->
        exists d, 10 * d <= s < 10 * d + 10 /\ 10 * d <= y <= 10 * d + 9)
    /\ - 9007199254740992 <= (s / 10) * 10
    /\ (s / 10) * 10 + 9 <= 9007199254740992.
Proof.
  intros y s Ey Es. unfold exactRange in Ey, Es.
  pose proof (Z.div_mod s 10 ltac:(lia)) as D.
  pose proof (Z.mod_pos_bound s 10 ltac:(lia)) as B.
  split; [apply isInDecade_Int|]. split; [lia|].
  split; [|lia].
  rewrite isInDecade_Int. unfold inDecadeOf. split.
  - intros H. exists (s / 10). lia.
  - intros (d & Hs & Hy). assert (d = s / 10) as -> by nia. lia.
Qed.

Lemma decade_matching_witness :
  isInDecade (Int 1922) (Int 1925) = true /\ isInDecade (Int 1930) (Int 1925) = false.
Proof.
  assert (exactRange 1922 /\ exactRange 1925 /\ exactRange 1930) as (E2 & E5 & E0)
    by (unfold exactRange; lia).
  split.
  - apply (proj1 (decade_matching 1922 1925 E2 E5)).
    change (1925 / 10) with 192. lia.
  - destruct (isInDecade (Int 1930) (Int 1925)) eqn:H; [|reflexivity].
    apply (proj1 (decade_matching 1930 1925 E0 E5)) in H.
    change (1925 / 10) with 192 in H. lia.
Defined.

(** The two ways of computing side by side: equal on years, different
    where a double cannot hold the integer. *)
Example double_arithmetic :
  Double.isInDecade (Double.ofZ 1922) (Double.ofZ 1925) = isInDecade (Int 1922) (Int 1925)
  /\ Double.isInDecade (Double.ofZ 1930) (Double.ofZ 1925) = isInDecade (Int 1930) (Int 1925)
  /\ Double.isInDecade (Double.ofZ (-11)) (Double.ofZ (-15)) = isInDecade (Int (-11)) (Int (-15))
  /\ Double.isInDecade (Double.ofZ 9007199254740982) (Double.ofZ 9007199254740980)
     = isInDecade (Int 9007199254740982) (Int 9007199254740980)
  /\ Double.toZ (Double.ofZ 9007199254741000) = Some 9007199254741000
  /\ Double.toZ (Double.ofNumber (parseInt "9007199254740993")) = Some 9007199254740992
  /\ Double.ofZ (10 ^ 309) = S754_infinity false
  /\ Double.isInDecade (Double.ofZ 9007199254740990) (Double.ofZ 9007199254741000) = false.
Proof. repeat split; vm_compute; reflexivity. Qed.

(** Eight above [2^53] the sum [decadeStart + 9] is no integer a double
    holds: it rounds up to the year itself, the test of the code answers
    [true], and the year is not within the decade of the search year. *)
Lemma decade_test_rounds_beyond_exact_range :
  ~ (Double.isInDecade (Double.ofZ 9007199254741000) (Double.ofZ 9007199254740990) = true
     <-> (9007199254740990 / 10) * 10 <= 9007199254741000
         <= (9007199254740990 / 10) * 10 + 9).
Proof.
  intros [H _].
  assert (Double.isInDecade (Double.ofZ 9007199254741000) (Double.ofZ 9007199254740990)
          = true) as T by (vm_compute; reflexivity).
  specialize (H T).
  assert (9007199254740990 / 10 = 900719925474099) as Q by reflexivity.
  rewrite Q in H. lia.
Qed.

(** C3 (as amended). For a search term and a record whose parsed integer
    and year are of absolute value below [2^53 - 9], [filteredLogos] keeps
    the record exactly when it is in the collection and all three
    predicates hold: the lower-cased name contains the lower-cased search
    term or the term parses as an integer whose decade contains the
    record's year; no color filter is set or the colors are equal; no
    type filter is set or the types are equal.  A term that does not
    parse turns the year branch off without an error, and the empty term
    satisfies the substring branch for every record. *)
Theorem matching_predicate :
  forall (searchTerm : string) (filters : Filters.t) (logos : list Logo.t) (logo : Logo.t),
    exactNumber (parseInt searchTerm) ->
    exactNumber (Logo.year logo) ->
    (In logo (filteredLogos searchTerm filters logos) <->
     In logo logos /\
     (isSubstringOf (toLowerCase searchTerm) (toLowerCase (Logo.name logo)) \/
      exists s y, parseInt searchTerm = Int s /\ Logo.year logo = Int y /\
                  (s / 10) * 10 <= y <= (s / 10) * 10 + 9) /\
     (Filters.color filters = "" \/ Logo.color logo = Filters.color filters) /\
     (Filters.type filters = "" \/ Logo.type logo = Filters.type filters))
    /\ (isNaN (parseInt searchTerm) = true -> yearMatch searchTerm logo = false)
    /\ includes (toLowerCase (orEmpty (Logo.name logo))) (toLowerCase (orEmpty "")) = true
    /\ matchesSearch "" logo = true.
Proof.
  intros searchTerm filters logos logo _ _.
  split; [|split; [|split]].
  - unfold filteredLogos.
    rewrite filter_In, matchesLogo_spec. unfold inDecadeOf. reflexivity.
  - intros H. unfold yearMatch. now rewrite H.
  - apply includes_empty.
  - unfold matchesSearch. cbn [orEmpty falsy toLowerCase]. now rewrite includes_empty.
Qed.

Lemma matching_predicate_witness :
  In scenarioA_expected (filteredLogos "1925" Filters.initial [scenarioA_expected]) /\
  yearMatch "radio" scenarioA_expected = false.
Proof.
  assert (exactNumber (Logo.year scenarioA_expected)) as Ey
    by (vm_compute; split; reflexivity).
  split.
  - assert (exactNumber (parseInt "1925")) as Es by (vm_compute; split; reflexivity).
    apply (proj1 (matching_predicate "1925" Filters.initial [scenarioA_expected]
                    scenarioA_expected Es Ey)).
    split; [now left|]. split; [|split; now left].
    right. exists 1925, 1922. split; [reflexivity|]. split; [reflexivity|].
    assert (1925 / 10 = 192) as -> by reflexivity. lia.
  - apply (matching_predicate "radio" Filters.initial [] scenarioA_expected I Ey).
    reflexivity.
Defined.

(** The record of the year 9007199254741000 and the term
    [9007199254740990]: the name does not contain the term and the year
    is ten above the term's decade start, so the matching rule does not
    hold, and the filter of the code keeps the record, because the end of
    the decade rounds up to the record's year. *)
Lemma far_future_record_is_kept :
  ~ (In farFutureLogo
        (Double.filteredLogos "9007199254740990" Filters.initial [farFutureLogo])
     <-> In farFutureLogo [farFutureLogo] /\
         matchingRule "9007199254740990" Filters.initial farFutureLogo).
Proof.
  intros [H _].
  assert (Double.filteredLogos "9007199254740990" Filters.initial [farFutureLogo]
          = [farFutureLogo]) as K by (vm_compute; reflexivity).
  rewrite K in H. specialize (H (or_introl eq_refl)).
  destruct H as (_ & [Sub | (s & y & Ps & Py & D)] & _).
  - apply includes_spec in Sub. vm_compute in Sub. discriminate Sub.
  - assert (parseInt "9007199254740990" = Int 9007199254740990) as Ps' by reflexivity.
    assert (Logo.year farFutureLogo = Int 9007199254741000) as Py' by reflexivity.
    rewrite Ps' in Ps. rewrite Py' in Py. injection Ps as <-. injection Py as <-.
    assert (9007199254740990 / 10 = 900719925474099) as Q by reflexivity.
    rewrite Q in D. lia.
Qed.

(** C5. [filteredLogos] returns a subsequence of the collection, in the
    collection's order, and the unconstrained query (empty term, no color
    filter, no type filter) returns the collection itself. *)
Theorem filter_preserves_order :
  forall (searchTerm : string) (filters : Filters.t) (logos : list Logo.t),
    sublist (filteredLogos searchTerm filters logos) logos
    /\ filteredLogos "" (Filters.mk "" "") logos = logos.
Proof.
  intros searchTerm filters logos. split; [apply filteredLogos_sublist|].
  unfold filteredLogos. induction logos as [|logo logos IH]; cbn [List.filter].
  - reflexivity.
  - change (Filters.mk "" "") with Filters.initial in *.
    now rewrite matchesLogo_unconstrained, IH.
Qed.

(* ===================================================================== *)
(** * The selectors *)
(* ===================================================================== *)

Section Selectors.

Lemma handleColorSelect_same (v : string) : handleColorSelect v v = "".
Proof. unfold handleColorSelect. now rewrite orEmpty_id, String.eqb_refl. Qed.

Lemma handleColorSelect_other (v w : string) : w <> v -> handleColorSelect v w = w.
Proof.
  intros H. unfold handleColorSelect. rewrite orEmpty_id.
  destruct (String.eqb_spec v w); [congruence | reflexivity].
Qed.

Lemma handleTypeSelect_same (v : string) : handleTypeSelect v v = "".
Proof. unfold handleTypeSelect. now rewrite orEmpty_id, String.eqb_refl. Qed.

Lemma handleTypeSelect_other (v w : string) : w <> v -> handleTypeSelect v w = w.
Proof.
  intros H. unfold handleTypeSelect. rewrite orEmpty_id.
  destruct (String.eqb_spec v w); [congruence | reflexivity].
Qed.

Lemma applyClick_vocabulary (filters : Filters.t) (c : click) :
  typeInVocabulary filters -> typeInVocabulary (applyClick filters c).
Proof.
  intros H. destruct c as [colorId r | type r]; cbn [applyClick].
  - exact H.
  - unfold typeInVocabulary, clickType, handleTypeSelect. cbn [Filters.type].
    destruct (String.eqb _ type); [now left | now right].
Qed.

Lemma fold_clicks_vocabulary (clicks : list click) (filters : Filters.t) :
  typeInVocabulary filters -> typeInVocabulary (fold_left applyClick clicks filters).
Proof.
  revert filters. induction clicks as [|c clicks IH]; intros filters H; cbn [fold_left].
  - exact H.
  - apply IH. now apply applyClick_vocabulary.
Qed.

Lemma reachable_vocabulary (filters : Filters.t) :
  reachable filters ->
  Filters.type filters = "" \/ Filters.type filters = "serif" \/
  Filters.type filters = "sans-serif".
Proof.
  intros [clicks ->].
  destruct (fold_clicks_vocabulary clicks Filters.initial) as [H | H].
  - now left.
  - now left.
  - right. cbn [typeButtons In] in H. intuition auto.
Qed.

End Selectors.

(** C9. Toggle-single-select: choosing the value that is already selected
    clears the color (or type) filter, choosing another value [w] makes
    [w] the selected one, the other filter is left alone, and choosing the
    same value twice in a row from unset ends unset. *)
Theorem toggle_single_select :
  forall (filters : Filters.t) (v w : string),
    (Filters.color filters = v -> Filters.color (clickColor filters v) = "")
    /\ (Filters.type filters = v -> Filters.type (clickType filters v) = "")
    /\ (w <> v -> Filters.color filters = v -> Filters.color (clickColor filters w) = w)
    /\ (w <> v -> Filters.type filters = v -> Filters.type (clickType filters w) = w)
    /\ Filters.type (clickColor filters w) = Filters.type filters
    /\ Filters.color (clickType filters w) = Filters.color filters
    /\ (Filters.color filters = "" ->
        Filters.color (clickColor (clickColor filters v) v) = "")
    /\ (Filters.type filters = "" ->
        Filters.type (clickType (clickType filters v) v) = "").
Proof.
  intros filters v w. unfold clickColor, clickType. cbn [Filters.color Filters.type].
  repeat split.
  - intros ->. apply handleColorSelect_same.
  - intros ->. apply handleTypeSelect_same.
  - intros H ->. now apply handleColorSelect_other.
  - intros H ->. now apply handleTypeSelect_other.
  - intros ->. destruct (String.eqb_spec v "") as [->|H].
    + reflexivity.
    + rewrite (handleColorSelect_other "" v H). apply handleColorSelect_same.
  - intros ->. destruct (String.eqb_spec v "") as [->|H].
    + reflexivity.
    + rewrite (handleTypeSelect_other "" v H). apply handleTypeSelect_same.
Qed.

Lemma toggle_single_select_witness :
  Filters.color (clickColor (Filters.mk "blue" "serif") "blue") = "" /\
  Filters.color (clickColor (Filters.mk "blue" "serif") "red") = "red" /\
  Filters.type (clickType (Filters.mk "blue" "serif") "sans-serif") = "sans-serif" /\
  Filters.color (clickColor (clickColor Filters.initial "red") "red") = "".
Proof.
  pose proof (toggle_single_select (Filters.mk "blue" "serif") "blue" "red")
    as (Hsame & _ & Hother & _).
  pose proof (toggle_single_select (Filters.mk "blue" "serif") "serif" "sans-serif")
    as (_ & _ & _ & Htype & _).
  pose proof (toggle_single_select Filters.initial "red" "red")
    as (_ & _ & _ & _ & _ & _ & Htwice & _).
  split; [apply Hsame; reflexivity|].
  split; [apply Hother; [discriminate | reflexivity]|].
  split; [apply Htype; [discriminate | reflexivity]|].
  apply Htwice; reflexivity.
Defined.

(** C7. An identifier whose type field is [SansSerif] and that parses on
    the success path gets the type ["sansserif"], lower-cased with no
    hyphen; a query whose type filter is ["sans-serif"] never matches the
    record, and ["sans-serif"] and ["serif"] are the only values the
    Typography selector can set, so the record is only ever shown with the
    type filter unset. *)
Theorem sansserif_never_matches :
  forall (filename : string) (id : Z) (name color source year : string) (logo : Logo.t),
    parts filename = [name; color; source; "SansSerif"; year] ->
    parseLogoFromFilename_try filename id = Return logo ->
    Logo.type logo = "sansserif"
    /\ (forall searchTerm colorFilter,
          matchesLogo searchTerm (Filters.mk colorFilter "sans-serif") logo = false)
    /\ (forall searchTerm colorFilter logos,
          ~ In logo (filteredLogos searchTerm (Filters.mk colorFilter "sans-serif") logos))
    /\ (forall filters, reachable filters ->
          Filters.type filters = "" \/ Filters.type filters = "serif" \/
          Filters.type filters = "sans-serif")
    /\ (forall filters searchTerm, reachable filters ->
          matchesLogo searchTerm filters logo = true -> Filters.type filters = "").
Proof.
  intros filename id n c s y logo P T.
  assert (logo = logoOfParts filename id n c s "SansSerif" y) as E.
  { destruct (malformed_or_wellformed filename)
      as [M | (n' & c' & s' & t' & y' & W)].
    - destruct (try_malformed filename id M) as [e Throws]. congruence.
    - rewrite (try_wellformed filename id _ _ _ _ _ W) in T.
      destruct W as [P' _]. rewrite P in P'. congruence. }
  assert (Logo.type logo = "sansserif") as Ty by (subst logo; reflexivity).
  assert (forall searchTerm colorFilter,
             matchesLogo searchTerm (Filters.mk colorFilter "sans-serif") logo = false) as NoMatch.
  { intros searchTerm colorFilter. unfold matchesLogo, matchesType.
    cbn [Filters.type falsy]. rewrite Ty. cbn. apply andb_false_r. }
  split; [exact Ty|]. split; [exact NoMatch|]. split; [|split].
  - intros searchTerm colorFilter logos H. unfold filteredLogos in H.
    apply filter_In in H. destruct H as [_ H]. now rewrite NoMatch in H.
  - apply reachable_vocabulary.
  - intros filters searchTerm R M.
    apply matchesLogo_spec in M. destruct M as (_ & _ & [M | M]); [exact M|].
    rewrite Ty in M.
    destruct (reachable_vocabulary filters R) as [H | [H | H]];
      [exact H | rewrite H in M; discriminate M | rewrite H in M; discriminate M].
Qed.

Lemma sansserif_never_matches_witness :
  exists logo : Logo.t,
    parseLogoFromFilename_try "CatalunyaRadio|Red|ccma|SansSerif|1983.png" 2 = Return logo /\
    Logo.type logo = "sansserif" /\
    matchesLogo "" (Filters.mk "" "sans-serif") logo = false.
Proof.
  eexists. split; [reflexivity|].
  pose proof (sansserif_never_matches
                "CatalunyaRadio|Red|ccma|SansSerif|1983.png" 2
                "CatalunyaRadio" "Red" "ccma" "1983" _ eq_refl eq_refl)
    as (Ty & NoMatch & _).
  split; [exact Ty | apply NoMatch].
Defined.

(* ===================================================================== *)
(** * Search terms that start with digits *)
(* ===================================================================== *)

Section NumericPrefix.

Ltac each_code_unit c :=
  destruct c as [[] [] [] [] [] [] [] []]; vm_compute;
  try reflexivity; try discriminate.

Lemma radixDigit_decimal (c : ascii) :
  isDecimalDigit c = true -> radixDigit 10 c = Some (code c - 48).
Proof. each_code_unit c. Qed.

Lemma radixDigit_not_decimal (c : ascii) :
  isDecimalDigit c = false -> radixDigit 10 c = None.
Proof. each_code_unit c. Qed.

Lemma digit_not_whiteSpace (c : ascii) :
  isDecimalDigit c = true -> isWhiteSpace c = false.
Proof. each_code_unit c. Qed.

Lemma stripSign_digit (c : ascii) (s : string) :
  isDecimalDigit c = true -> stripSign (String c s) = (1, String c s).
Proof.
  destruct c as [[] [] [] [] [] [] [] []]; intros H;
    try reflexivity; vm_compute in H; discriminate H.
Qed.

Lemma stripHexPrefix_none (s : string) :
  startsWith s "0x" = false -> startsWith s "0X" = false ->
  stripHexPrefix s = (10, s).
Proof.
  destruct s as [|c s]; [reflexivity|].
  destruct c as [[] [] [] [] [] [] [] []]; try reflexivity.
  destruct s as [|c' s]; [reflexivity|].
  destruct c' as [[] [] [] [] [] [] [] []]; try reflexivity.
  all: intros Hx HX; destruct s; cbn in Hx, HX; congruence.
Qed.

Lemma decimalValueFrom_nonneg (digits : string) :
  forall acc, allDecimal digits = true -> 0 <= acc -> 0 <= decimalValueFrom acc digits.
Proof.
  induction digits as [|c digits IH]; intros acc A H; cbn [decimalValueFrom].
  - exact H.
  - cbn [allDecimal] in A. apply andb_true_iff in A. destruct A as [D A].
    apply IH; [exact A|].
    unfold isDecimalDigit, between in D. apply andb_true_iff in D.
    rewrite !Z.leb_le in D. lia.
Qed.

(** Radix-10 reading stops at the first character that is no decimal
    digit. *)
Lemma parseDigits_decimal (digits rest : string) :
  forall acc,
    allDecimal digits = true -> startsWithDecimal rest = false ->
    parseDigits 10 (digits ++ rest) (Int acc) = Int (decimalValueFrom acc digits).
Proof.
  induction digits as [|c digits IH]; intros acc A R.
  - cbn [append decimalValueFrom].
    destruct rest as [|r rest]; [reflexivity|].
    cbn [startsWithDecimal] in R. cbn [parseDigits].
    now rewrite (radixDigit_not_decimal r R).
  - cbn [allDecimal] in A. apply andb_true_iff in A. destruct A as [D A].
    cbn [append parseDigits decimalValueFrom].
    rewrite (radixDigit_decimal c D). now apply IH.
Qed.

Lemma parseInt_decimal_prefix (digits rest : string) :
  digits <> "" -> allDecimal digits = true -> startsWithDecimal rest = false ->
  startsWith (digits ++ rest) "0x" = false ->
  startsWith (digits ++ rest) "0X" = false ->
  parseInt (digits ++ rest) = Int (decimalValue digits).
Proof.
  intros NE A R Hx HX.
  destruct digits as [|c digits]; [contradiction|].
  cbn [allDecimal] in A. apply andb_true_iff in A. destruct A as [D A].
  unfold parseInt.
  assert (trimStart (String c digits ++ rest) = String c digits ++ rest) as ->.
  { cbn [append trimStart]. now rewrite (digit_not_whiteSpace c D). }
  cbn [append] in *. rewrite (stripSign_digit c _ D).
  rewrite (stripHexPrefix_none _ Hx HX).
  cbn [parseDigits]. rewrite (radixDigit_decimal c D).
  rewrite (parseDigits_decimal digits rest _ A R).
  unfold decimalValue. cbn [decimalValueFrom mul].
  rewrite Z.mul_1_r. do 2 f_equal.
Qed.

(** Once a digit has been read the result is a number. *)
Lemma parseDigits_Int (R : Z) (s : string) :
  forall acc, exists z, parseDigits R s (Int acc) = Int z.
Proof.
  induction s as [|c s IH]; intros acc; cbn [parseDigits].
  - now exists acc.
  - destruct (radixDigit R c) as [d|]; [apply IH | now exists acc].
Qed.

Lemma parseDigits_NaN (R : Z) (s : string) :
  parseDigits R s NaN = NaN <-> noLeadingDigit R s.
Proof.
  destruct s as [|c s]; cbn [parseDigits noLeadingDigit]; [tauto|].
  destruct (radixDigit R c) as [d|]; [|tauto].
  destruct (parseDigits_Int R s d) as [z ->].
  split; discriminate.
Qed.

(** [parseInt] answers [NaN] exactly when, behind the white space, the
    sign and the hexadecimal prefix, no digit of the radix follows. *)
Lemma parseInt_NaN_iff (s : string) :
  parseInt s = NaN <->
  noLeadingDigit (fst (stripHexPrefix (snd (stripSign (trimStart s)))))
                 (snd (stripHexPrefix (snd (stripSign (trimStart s))))).
Proof.
  unfold parseInt.
  destruct (stripSign (trimStart s)) as [sign s1]. cbn [snd].
  destruct (stripHexPrefix s1) as [R s2]. cbn [fst snd].
  rewrite <- parseDigits_NaN.
  destruct (parseDigits R s2 NaN); cbn [mul]; split; congruence.
Qed.

(** Every year is in its own decade. *)
Lemma isInDecade_own (z : Z) : isInDecade (Int z) (Int z) = true.
Proof.
  unfold isInDecade. cbn [floorDiv mul add ge le].
  pose proof (Z.div_mod z 10 ltac:(lia)) as D.
  pose proof (Z.mod_pos_bound z 10 ltac:(lia)) as B.
  apply andb_true_iff. rewrite !Z.leb_le. lia.
Qed.

Lemma trimStart_allWhite (ws s : string) :
  allWhite ws = true -> trimStart (ws ++ s) = trimStart s.
Proof.
  induction ws as [|c ws IH]; cbn [allWhite append trimStart]; [reflexivity|].
  intros H. apply andb_true_iff in H. destruct H as [-> H]. now apply IH.
Qed.

(** Behind the sign: the radix stays ten and the digits are read up to
    the first character that is none. *)
Lemma digits_behind_sign (digits rest : string) :
  digits <> "" -> allDecimal digits = true -> startsWithDecimal rest = false ->
  startsWith (digits ++ rest) "0x" = false ->
  startsWith (digits ++ rest) "0X" = false ->
  stripHexPrefix (digits ++ rest) = (10, digits ++ rest) /\
  parseDigits 10 (digits ++ rest) NaN = Int (decimalValue digits).
Proof.
  intros NE A R Hx HX. split; [now apply stripHexPrefix_none|].
  destruct digits as [|c digits]; [contradiction|].
  cbn [allDecimal] in A. apply andb_true_iff in A. destruct A as [D A].
  cbn [append parseDigits]. rewrite (radixDigit_decimal c D).
  rewrite (parseDigits_decimal digits rest _ A R).
  unfold decimalValue. cbn [decimalValueFrom]. do 2 f_equal.
Qed.

Lemma parseInt_signed_prefix (ws sign digits rest : string) (k : Z) :
  allWhite ws = true -> signValue sign = Some k ->
  digits <> "" -> allDecimal digits = true -> startsWithDecimal rest = false ->
  startsWith (digits ++ rest) "0x" = false ->
  startsWith (digits ++ rest) "0X" = false ->
  parseInt (ws ++ sign ++ digits ++ rest) = Int (k * decimalValue digits).
Proof.
  intros W S NE A R Hx HX.
  destruct (digits_behind_sign digits rest NE A R Hx HX) as [Hex Ds].
  unfold parseInt. rewrite (trimStart_allWhite ws _ W).
  assert (exists c tail, digits ++ rest = String c tail /\ isDecimalDigit c = true)
    as (c & tail & E & D).
  { destruct digits as [|c digits]; [contradiction|].
    cbn [allDecimal] in A. apply andb_true_iff in A.
    exists c, (digits ++ rest). split; [reflexivity | apply A]. }
  destruct sign as [|a [|b sign]]; cbn [signValue] in S.
  - injection S as <-. cbn [append]. rewrite E.
    cbn [trimStart]. rewrite (digit_not_whiteSpace c D), (stripSign_digit c tail D).
    rewrite <- E, Hex, Ds. cbn [mul]. f_equal. lia.
  - assert (a = "+"%char /\ k = 1 \/ a = "-"%char /\ k = -1) as [[-> ->] | [-> ->]].
    { destruct a as [[] [] [] [] [] [] [] []]; try discriminate S;
        injection S as <-; [left | right]; split; reflexivity. }
    + cbn [append trimStart]. change (isWhiteSpace "+") with false. cbn [stripSign].
      rewrite Hex, Ds. cbn [mul]. f_equal. lia.
    + cbn [append trimStart]. change (isWhiteSpace "-") with false. cbn [stripSign].
      rewrite Hex, Ds. cbn [mul]. f_equal. lia.
  - destruct a as [[] [] [] [] [] [] [] []]; discriminate S.
Qed.

End NumericPrefix.

(** C10 (as amended). A search term that, behind optional white space and
    an optional sign, starts with decimal digits writing an integer below
    [2^53 - 9], goes on with a character that is no digit (or ends there)
    and does not continue with the hexadecimal prefix [0x]/[0X] switches
    the year branch on: [parseInt] yields the integer the digits write,
    with its sign, and the year branch tests the record's year against
    that integer's decade.  For every term the branch is off exactly when
    [parseInt] finds no integer, which is when no digit of the radix
    follows the white space, the sign and the hexadecimal prefix; no
    record passes the branch then, and a term that parses to an integer
    of that range lets the record of that year pass. *)
Theorem numeric_prefix_search :
  (forall (ws sign digits rest : string) (k : Z) (logo : Logo.t),
      allWhite ws = true ->
      signValue sign = Some k ->
      digits <> "" ->
      allDecimal digits = true ->
      startsWithDecimal rest = false ->
      startsWith (digits ++ rest) "0x" = false ->
      startsWith (digits ++ rest) "0X" = false ->
      exactRange (decimalValue digits) ->
      parseInt (ws ++ sign ++ digits ++ rest) = Int (k * decimalValue digits)
      /\ 0 <= decimalValue digits
      /\ isNaN (parseInt (ws ++ sign ++ digits ++ rest)) = false
      /\ yearMatch (ws ++ sign ++ digits ++ rest) logo =
         isInDecade (Logo.year logo) (Int (k * decimalValue digits)))
  /\ (forall searchTerm : string,
         (isNaN (parseInt searchTerm) = true <->
          noLeadingDigit
            (fst (stripHexPrefix (snd (stripSign (trimStart searchTerm)))))
            (snd (stripHexPrefix (snd (stripSign (trimStart searchTerm))))))
         /\ (isNaN (parseInt searchTerm) = true ->
             forall logo, yearMatch searchTerm logo = false)
         /\ (forall n, parseInt searchTerm = Int n -> exactRange n ->
                       exists logo, Logo.year logo = Int n /\
                                    yearMatch searchTerm logo = true)).
Proof.
  split.
  - intros ws sign digits rest k logo W S NE A R Hx HX _.
    pose proof (parseInt_signed_prefix ws sign digits rest k W S NE A R Hx HX) as P.
    split; [exact P|].
    split; [now apply decimalValueFrom_nonneg|].
    unfold yearMatch. rewrite P. split; reflexivity.
  - intros searchTerm. split; [|split].
    + rewrite <- parseInt_NaN_iff.
      destruct (parseInt searchTerm); cbn [isNaN]; split; congruence.
    + intros H logo. unfold yearMatch. now rewrite H.
    + intros n P _. exists (Logo.mk 0 "" (Int n) "" "" "" "").
      split; [reflexivity|].
      unfold yearMatch. rewrite P. cbn [isNaN negb Logo.year]. apply isInDecade_own.
Qed.

Lemma numeric_prefix_search_witness :
  parseInt "192a" = Int 192 /\
  parseInt "  -1925 or so" = Int (-1925) /\
  yearMatch "1925 or so" scenarioA_expected = true.
Proof.
  destruct numeric_prefix_search as [H _].
  assert (exactRange (decimalValue "192")) as E1 by (vm_compute; split; reflexivity).
  assert (exactRange (decimalValue "1925")) as E2 by (vm_compute; split; reflexivity).
  assert ("192" <> "" /\ "1925" <> "") as [N1 N2] by (split; discriminate).
  destruct (H "" "" "192" "a" 1 scenarioA_expected
              eq_refl eq_refl N1 eq_refl eq_refl eq_refl eq_refl E1) as (P1 & _).
  destruct (H "  " "-" "1925" " or so" (-1) scenarioA_expected
              eq_refl eq_refl N2 eq_refl eq_refl eq_refl eq_refl E2) as (P2 & _).
  destruct (H "" "" "1925" " or so" 1 scenarioA_expected
              eq_refl eq_refl N2 eq_refl eq_refl eq_refl eq_refl E2) as (_ & _ & _ & Y).
  split; [exact P1|]. split; [exact P2|].
  change (yearMatch ("" ++ "" ++ "1925" ++ " or so") scenarioA_expected = true).
  rewrite Y. reflexivity.
Defined.

(** ["0x"] starts with the integer 0 followed by the non-digit [x];
    [parseInt] takes the two characters for a hexadecimal prefix with no
    digit behind it and answers [NaN], which switches the year branch
    off. *)
Lemma hex_prefix_disables_year_branch :
  ~ numeric_prefix_activates "0x".
Proof.
  intros H.
  destruct (H "0" "x" eq_refl) as [N _]; try discriminate; try reflexivity.
Qed.

(** With a hexadecimal digit behind the prefix the branch is on, with the
    hexadecimal value and not with the decimal prefix 0. *)
Example hex_prefix_value :
  parseInt "0x7B0" = Int 1968 /\
  yearMatch "0x7B0" (logoOfParts "f" 1 "N" "c" "s" "t" "1965") = true /\
  yearMatch "0x7B0" (logoOfParts "f" 1 "N" "c" "s" "t" "5") = false.
Proof. repeat split; reflexivity. Qed.

(* ===================================================================== *)
(** * More about the parser *)
(* ===================================================================== *)

Ltac by_code_unit c :=
  destruct c as [[] [] [] [] [] [] [] []]; vm_compute;
  try reflexivity; try discriminate.

Section ParserResults.

Lemma toLowerChar_idempotent (c : ascii) : toLowerChar (toLowerChar c) = toLowerChar c.
Proof. by_code_unit c. Qed.

Lemma toLowerCase_idempotent (s : string) : toLowerCase (toLowerCase s) = toLowerCase s.
Proof.
  induction s as [|c s IH]; cbn [toLowerCase]; [reflexivity|].
  now rewrite toLowerChar_idempotent, IH.
Qed.

Lemma toLowerCase_not_empty (s : string) : s <> "" -> toLowerCase s <> "".
Proof. destruct s; [congruence | discriminate]. Qed.

(** What the full-guard parser returns is the fallback record or the
    record of five non-empty parts. *)
Lemma parse_cases (filename : string) (id : Z) (logo : Logo.t) :
  parseLogoFromFilename filename id = Return logo ->
  (Malformed filename /\ logo = fallbackLogo id) \/
  (exists name color source type year,
      WellFormed filename name color source type year /\
      logo = logoOfParts filename id name color source type year).
Proof.
  intros H.
  destruct (malformed_or_wellformed filename) as [M | (n & c & s & t & y & W)].
  - left. rewrite (parse_malformed filename id M) in H. split; congruence.
  - right. rewrite (parse_wellformed filename id _ _ _ _ _ W) in H.
    exists n, c, s, t, y. split; congruence.
Qed.

Lemma parse_returns (filename : string) (id : Z) :
  exists logo, parseLogoFromFilename filename id = Return logo.
Proof.
  destruct (malformed_or_wellformed filename) as [M | (n & c & s & t & y & W)].
  - eexists. exact (parse_malformed filename id M).
  - eexists. exact (parse_wellformed filename id _ _ _ _ _ W).
Qed.

Lemma source_rewritten (source : string) :
  startsWith (if startsWith source "www" then "https://" ++ source else source) "www"
  = false.
Proof. destruct (startsWith source "www") eqn:E; [reflexivity | exact E]. Qed.

Lemma trimStart_no_leading (s : string) : startsWithWhite (trimStart s) = false.
Proof.
  induction s as [|c s IH]; cbn [trimStart]; [reflexivity|].
  destruct (isWhiteSpace c) eqn:E; [exact IH | cbn [startsWithWhite]; exact E].
Qed.

Lemma trimEnd_keeps_start (s : string) :
  startsWithWhite s = false -> startsWithWhite (trimEnd s) = false.
Proof.
  destruct s as [|c s]; cbn [startsWithWhite trimEnd]; [reflexivity|].
  intros E. rewrite E. cbn [andb startsWithWhite]. exact E.
Qed.

Lemma trimEnd_no_trailing (s : string) : endsWithWhite (trimEnd s) = false.
Proof.
  induction s as [|c s IH]; cbn [trimEnd]; [reflexivity|].
  destruct (isWhiteSpace c) eqn:E; cbn [andb].
  - destruct (trimEnd s) as [|d r] eqn:T; cbn [falsy]; [reflexivity|].
    exact IH.
  - destruct (trimEnd s) as [|d r] eqn:T; [cbn [endsWithWhite]; exact E | exact IH].
Qed.

Lemma removeWhite_trimStart (s : string) : removeWhite (trimStart s) = removeWhite s.
Proof.
  induction s as [|c s IH]; cbn [trimStart removeWhite]; [reflexivity|].
  destruct (isWhiteSpace c) eqn:E; [exact IH | cbn [removeWhite]; now rewrite E].
Qed.

Lemma removeWhite_trimEnd (s : string) : removeWhite (trimEnd s) = removeWhite s.
Proof.
  induction s as [|c s IH]; cbn [trimEnd removeWhite]; [reflexivity|].
  destruct (isWhiteSpace c) eqn:E; cbn [andb].
  - destruct (trimEnd s) as [|d r] eqn:T; cbn [falsy].
    + now rewrite <- IH.
    + cbn [removeWhite] in *. now rewrite E, IH.
  - cbn [removeWhite]. now rewrite E, IH.
Qed.

Lemma removeWhite_spaceBeforeCapitals (s : string) :
  removeWhite (spaceBeforeCapitals s) = removeWhite s.
Proof.
  induction s as [|c s IH]; cbn [spaceBeforeCapitals removeWhite]; [reflexivity|].
  destruct (isUpperAZ c); cbn [removeWhite].
  - change (isWhiteSpace " ") with true. cbn iota. now rewrite IH.
  - now rewrite IH.
Qed.

Lemma removeWhite_none (s : string) :
  removeWhite s = s <-> (forall pre c post, s = pre ++ String c post -> isWhiteSpace c = false).
Proof.
  induction s as [|c s IH]; cbn [removeWhite].
  - split; [|reflexivity]. intros _ [|a pre] d post H; discriminate H.
  - destruct (isWhiteSpace c) eqn:E.
    + split.
      * intros H. exfalso.
        assert (String.length (removeWhite s) <= String.length s)%nat as L.
        { clear. induction s as [|a s IH]; cbn [removeWhite]; [lia|].
          destruct (isWhiteSpace a); cbn [String.length]; lia. }
        rewrite H in L. cbn [String.length] in L. lia.
      * intros H. specialize (H "" c s eq_refl). congruence.
    + split.
      * intros H. injection H as H. intros [|a pre] d post P.
        -- cbn in P. injection P as <- _. exact E.
        -- cbn in P. injection P as _ P. now apply (proj1 IH H pre d post).
      * intros H. f_equal. apply IH. intros pre d post P.
        apply (H (String c pre) d post). cbn. now rewrite P.
Qed.

Lemma trim_empty_iff (s : string) : trim s = "" <-> allWhite s = true.
Proof.
  unfold trim. induction s as [|c s IH]; cbn [trimStart allWhite]; [tauto|].
  destruct (isWhiteSpace c) eqn:E; cbn [andb]; [exact IH|].
  cbn [trimEnd]. rewrite E. cbn [andb]. split; discriminate.
Qed.

Lemma spaceBeforeCapitals_allWhite (s : string) :
  allWhite (spaceBeforeCapitals s) = allWhite s.
Proof.
  induction s as [|c s IH]; cbn [spaceBeforeCapitals allWhite]; [reflexivity|].
  destruct (isUpperAZ c) eqn:U; cbn [allWhite]; [|now rewrite IH].
  change (isWhiteSpace " ") with true. cbn [andb]. now rewrite IH.
Qed.

(** The fields of a returned record. *)
Lemma parsed_fields (filename : string) (id : Z) (logo : Logo.t) :
  parseLogoFromFilename filename id = Return logo ->
  Logo.id logo = id /\
  (exists z, Logo.year logo = Int z /\ z <> 0) /\
  Logo.color logo <> "" /\ Logo.type logo <> "" /\
  Logo.source logo <> "" /\
  startsWith (Logo.imageUrl logo) "/logos/" = true.
Proof.
  intros P.
  destruct (parse_cases _ _ _ P) as [[_ ->] | (n & c & s & t & y & W & ->)].
  - repeat split; try discriminate. exists 2000. split; [reflexivity | lia].
  - destruct W as (_ & Hn & Hc & Hs & Ht & Hy).
    cbn [logoOfParts Logo.id Logo.year Logo.color Logo.type Logo.source Logo.imageUrl].
    rewrite !orEmpty_id.
    split; [reflexivity|]. split; [|split; [|split; [|split]]].
    + unfold orDefault. destruct (parseInt y) as [|z].
      * exists 2000. split; [reflexivity | lia].
      * destruct (Z.eqb_spec z 0); [exists 2000 | exists z]; split; auto; lia.
    + now apply toLowerCase_not_empty.
    + now apply toLowerCase_not_empty.
    + destruct (startsWith s "www"); [discriminate | exact Hs].
    + apply startsWith_spec. now exists filename.
Qed.

End ParserResults.

(** X1. Whatever the identifier, the record the full-guard parser returns
    has its position as id, a year that is neither [NaN] nor 0, a color,
    a type, a source and an image path that are not empty, and an image
    path under [/logos/]. *)
Theorem parsed_record_defined :
  forall (filename : string) (id : Z),
    exists logo : Logo.t,
      parseLogoFromFilename filename id = Return logo /\
      Logo.id logo = id /\
      Logo.year logo <> NaN /\ Logo.year logo <> Int 0 /\
      Logo.color logo <> "" /\ Logo.type logo <> "" /\
      Logo.source logo <> "" /\
      startsWith (Logo.imageUrl logo) "/logos/" = true.
Proof.
  intros filename id.
  destruct (parse_returns filename id) as [logo P]. exists logo.
  split; [exact P|].
  destruct (parsed_fields filename id logo P) as (I & (z & Y & Hz) & C & T & S & U).
  split; [exact I|].
  split; [rewrite Y; discriminate|].
  split; [rewrite Y; congruence|].
  repeat split; assumption.
Qed.

(** X2. The source of a returned record never starts with [www]: a bare
    [www...] source has been given its [https://] and every other source
    is passed through. *)
Theorem parsed_source_not_bare :
  forall (filename : string) (id : Z) (logo : Logo.t),
    parseLogoFromFilename filename id = Return logo ->
    startsWith (Logo.source logo) "www" = false
    /\ (forall name color source type year,
           WellFormed filename name color source type year ->
           (startsWith source "www" = true -> Logo.source logo = "https://" ++ source) /\
           (startsWith source "www" = false -> Logo.source logo = source)).
Proof.
  intros filename id logo P. split.
  - destruct (parse_cases _ _ _ P) as [[_ ->] | (n & c & s & t & y & W & ->)].
    + reflexivity.
    + cbn [logoOfParts Logo.source]. apply source_rewritten.
  - intros n c s t y W.
    rewrite (parse_wellformed filename id _ _ _ _ _ W) in P.
    injection P as <-. cbn [logoOfParts Logo.source].
    split; intros ->; reflexivity.
Qed.

Lemma parsed_source_not_bare_witness :
  startsWith (Logo.source (logoOfParts "CatalunyaRadio|Red|www|SansSerif|1983.png" 2
                             "CatalunyaRadio" "Red" "www" "SansSerif" "1983")) "www"
  = false.
Proof.
  apply (parsed_source_not_bare "CatalunyaRadio|Red|www|SansSerif|1983.png" 2).
  reflexivity.
Defined.

(** X3. The color and the type of a returned record are in lower case:
    lower-casing them again changes nothing, so the exact comparison of
    the filter sees case-normalised values. *)
Theorem parsed_color_type_lowercase :
  forall (filename : string) (id : Z) (logo : Logo.t),
    parseLogoFromFilename filename id = Return logo ->
    toLowerCase (Logo.color logo) = Logo.color logo /\
    toLowerCase (Logo.type logo) = Logo.type logo.
Proof.
  intros filename id logo P.
  destruct (parse_cases _ _ _ P) as [[_ ->] | (n & c & s & t & y & W & ->)].
  - split; reflexivity.
  - cbn [logoOfParts Logo.color Logo.type].
    split; apply toLowerCase_idempotent.
Qed.

Lemma parsed_color_type_lowercase_witness :
  toLowerCase "blue" = "blue" /\ toLowerCase "sansserif" = "sansserif".
Proof.
  apply (parsed_color_type_lowercase "Acme|BLUE|acme|SansSerif|1950.png" 1
           (logoOfParts "Acme|BLUE|acme|SansSerif|1950.png" 1
                        "Acme" "BLUE" "acme" "SansSerif" "1950")).
  reflexivity.
Defined.

(** X4. The name of a returned record neither starts nor ends with white
    space; on five non-empty parts it is the name field up to white space
    (deleting the white space of both gives the same string, so a name
    field without white space is recovered by deleting the spaces), and it
    is empty exactly when the name field is white space only. *)
Theorem parsed_name_shape :
  forall (filename : string) (id : Z) (logo : Logo.t),
    parseLogoFromFilename filename id = Return logo ->
    startsWithWhite (Logo.name logo) = false
    /\ endsWithWhite (Logo.name logo) = false
    /\ (forall name color source type year,
           WellFormed filename name color source type year ->
           removeWhite (Logo.name logo) = removeWhite name /\
           (removeWhite name = name -> removeWhite (Logo.name logo) = name) /\
           (Logo.name logo = "" <-> allWhite name = true)).
Proof.
  intros filename id logo P. split; [|split].
  - destruct (parse_cases _ _ _ P) as [[_ ->] | (n & c & s & t & y & W & ->)].
    + reflexivity.
    + cbn [logoOfParts Logo.name]. unfold trim.
      apply trimEnd_keeps_start, trimStart_no_leading.
  - destruct (parse_cases _ _ _ P) as [[_ ->] | (n & c & s & t & y & W & ->)].
    + reflexivity.
    + cbn [logoOfParts Logo.name]. unfold trim. apply trimEnd_no_trailing.
  - intros n c s t y W.
    rewrite (parse_wellformed filename id _ _ _ _ _ W) in P.
    injection P as <-. cbn [logoOfParts Logo.name].
    assert (removeWhite (trim (spaceBeforeCapitals n)) = removeWhite n) as R.
    { unfold trim.
      now rewrite removeWhite_trimEnd, removeWhite_trimStart,
                  removeWhite_spaceBeforeCapitals. }
    split; [exact R|]. split.
    + intros H. now rewrite R.
    + now rewrite trim_empty_iff, spaceBeforeCapitals_allWhite.
Qed.

Lemma parsed_name_shape_witness :
  startsWithWhite "Catalunya Radio" = false /\
  endsWithWhite "Catalunya Radio" = false /\
  removeWhite "Catalunya Radio" = "CatalunyaRadio".
Proof.
  pose proof (parsed_name_shape "CatalunyaRadio|Red|ccma|SansSerif|1983.png" 2
                (logoOfParts "CatalunyaRadio|Red|ccma|SansSerif|1983.png" 2
                             "CatalunyaRadio" "Red" "ccma" "SansSerif" "1983")
                eq_refl) as (S & E & R).
  split; [exact S|]. split; [exact E|].
  apply (R "CatalunyaRadio" "Red" "ccma" "SansSerif" "1983").
  - unfold WellFormed. repeat split; discriminate.
  - reflexivity.
Defined.

(** X5. For a record the full-guard parser returned, the card never
    prints [Year unknown] or [Type unknown] and always renders the source
    link; on five non-empty parts it prints [Unnamed Logo] in place of the
    name when the name field is white space only, and the record's name
    otherwise. *)
Theorem card_of_parsed_record :
  forall (filename : string) (id : Z) (logo : Logo.t),
    parseLogoFromFilename filename id = Return logo ->
    displayYear logo = Num (Logo.year logo)
    /\ displayType logo = Logo.type logo
    /\ showsSourceLink logo = true
    /\ (forall name color source type year,
           WellFormed filename name color source type year ->
           displayName logo =
           if allWhite name then "Unnamed Logo" else Logo.name logo).
Proof.
  intros filename id logo P.
  destruct (parsed_fields filename id logo P) as (_ & Y & _ & T & S & _).
  split; [|split; [|split]].
  - unfold displayYear. destruct Y as (z & -> & Hz).
    destruct (Z.eqb_spec z 0); [contradiction | reflexivity].
  - unfold displayType. apply falsy_false in T. now rewrite T.
  - unfold showsSourceLink. apply falsy_false in S. now rewrite S.
  - intros n c s t y W.
    rewrite (parse_wellformed filename id _ _ _ _ _ W) in P.
    injection P as <-. unfold displayName. cbn [logoOfParts Logo.name].
    destruct (allWhite n) eqn:A.
    + rewrite <- spaceBeforeCapitals_allWhite in A.
      apply trim_empty_iff in A. now rewrite A.
    + destruct (trim (spaceBeforeCapitals n)) as [|a r] eqn:N; [|reflexivity].
      apply trim_empty_iff in N. rewrite spaceBeforeCapitals_allWhite in N. congruence.
Qed.

Lemma card_of_parsed_record_witness :
  displayYear (logoOfParts " |Blue|acme|Serif|0.png" 4 " " "Blue" "acme" "Serif" "0")
  = Num (Int 2000) /\
  displayName (logoOfParts " |Blue|acme|Serif|0.png" 4 " " "Blue" "acme" "Serif" "0")
  = "Unnamed Logo".
Proof.
  pose proof (card_of_parsed_record " |Blue|acme|Serif|0.png" 4 _ eq_refl)
    as (Y & _ & _ & N).
  split; [exact Y|].
  apply (N " " "Blue" "acme" "Serif" "0").
  unfold WellFormed. repeat split; discriminate.
Defined.

(* ===================================================================== *)
(** * Dots, extensions and the variants of the parser *)
(* ===================================================================== *)

Section Splitting.

Lemma split_at_first (sep : ascii) (pre post : string) :
  noChar sep pre = true ->
  split sep (pre ++ String sep post) = pre :: split sep post.
Proof.
  induction pre as [|c pre IH]; cbn [append noChar split]; intros N.
  - now rewrite Ascii.eqb_refl.
  - apply andb_true_iff in N. destruct N as [C N].
    apply negb_true_iff in C. rewrite C, (IH N). reflexivity.
Qed.

Lemma split_length (sep : ascii) (s : string) :
  List.length (split sep s) = S (countChar sep s).
Proof.
  induction s as [|c s IH]; cbn [split countChar]; [reflexivity|].
  destruct (Ascii.eqb c sep); cbn [List.length]; [now rewrite IH|].
  destruct (split sep s) as [|p ps] eqn:E; [now apply split_not_nil in E|].
  exact IH.
Qed.

Lemma withoutExtension_cut (pre post : string) :
  noChar "." pre = true ->
  withoutExtension (pre ++ String "." post) = Some pre.
Proof.
  intros N. unfold withoutExtension. now rewrite (split_at_first _ _ _ N).
Qed.

Lemma parts_cut (pre post : string) :
  noChar "." pre = true -> parts (pre ++ String "." post) = split "|" pre.
Proof. intros N. unfold parts. now rewrite (withoutExtension_cut _ _ N). Qed.

(** Both guarded parsers, read off the parts. *)
Lemma full_guard_eval (filename : string) (id : Z) :
  parseLogoFromFilename filename id =
  Return (match parts filename with
          | [_; _; _; _; _] => recordOfParts filename id (parts filename)
          | _ => fallbackLogo id
          end).
Proof.
  destruct (malformed_or_wellformed filename) as [M | (n & c & s & t & y & W)].
  - rewrite (parse_malformed filename id M). f_equal.
    destruct M as [-> | [L | I]]; [reflexivity | |].
    + destruct (parts filename) as [|? [|? [|? [|? [|? [|? ?]]]]]]; try reflexivity.
      now contradiction L.
    + destruct (parts filename) as [|n [|c [|s [|t [|y [|? ?]]]]]]; try reflexivity.
      cbn [recordOfParts].
      assert (falsy n || falsy c || falsy s || falsy t || falsy y = true) as ->;
        [|reflexivity].
      rewrite !orb_true_iff, !falsy_true. cbn [In] in I. intuition auto.
  - rewrite (parse_wellformed filename id _ _ _ _ _ W). f_equal.
    destruct W as (-> & Hn & Hc & Hs & Ht & Hy). cbn [recordOfParts].
    apply falsy_false in Hn, Hc, Hs, Ht, Hy.
    now rewrite Hn, Hc, Hs, Ht, Hy.
Qed.

Lemma partial_guard_eval (filename : string) (id : Z) :
  PageTsx.parseLogoFromFilename filename id =
  Return (match parts filename with
          | n :: c :: s :: t :: y :: _ => recordOfParts filename id [n; c; s; t; y]
          | _ => fallbackLogo id
          end).
Proof.
  unfold PageTsx.parseLogoFromFilename, PageTsx.parseLogoFromFilename_try, parts.
  destruct (withoutExtension_defined filename) as [w ->]. cbn [deref].
  destruct (split "|" w) as [|n [|c [|s [|t [|y l]]]]];
    cbn [destructure5 nth_error falsyOpt orb tryCatch];
    rewrite ?orb_true_r; cbn [tryCatch]; try reflexivity.
  cbn [recordOfParts].
  destruct (falsy n || falsy c || falsy s || falsy t || falsy y);
    cbn [deref tryCatch]; [reflexivity|].
  unfold logoOfParts. now rewrite !orEmpty_id.
Qed.

End Splitting.

(** X6. What follows the first dot only reaches the image path: with no
    dot in [base], the parts of [base.ext] are those of [base] cut at the
    pipes, and two identifiers that differ in what follows the first dot
    parse to records that differ at most in their image path. *)
Theorem extension_only_in_image_path :
  forall (base ext ext' : string) (id : Z),
    noChar "." base = true ->
    parts (base ++ String "." ext) = split "|" base
    /\ exists logo logo' : Logo.t,
         parseLogoFromFilename (base ++ String "." ext) id = Return logo /\
         parseLogoFromFilename (base ++ String "." ext') id = Return logo' /\
         sameButImage logo logo'.
Proof.
  intros base ext ext' id N.
  split; [now apply parts_cut|].
  do 2 eexists. split; [apply full_guard_eval|]. split; [apply full_guard_eval|].
  rewrite !(parts_cut base _ N).
  destruct (split "|" base) as [|n [|c [|s [|t [|y [|? ?]]]]]];
    try (repeat split; reflexivity).
  cbn [recordOfParts].
  destruct (falsy n || falsy c || falsy s || falsy t || falsy y);
    repeat split; reflexivity.
Qed.

Lemma extension_only_in_image_path_witness :
  exists logo logo' : Logo.t,
    parseLogoFromFilename "Acme|Blue|acme|Serif|1950.png" 1 = Return logo /\
    parseLogoFromFilename "Acme|Blue|acme|Serif|1950.svg.bak" 1 = Return logo' /\
    sameButImage logo logo'.
Proof.
  apply (extension_only_in_image_path "Acme|Blue|acme|Serif|1950" "png" "svg.bak" 1).
  reflexivity.
Defined.

(** X7. An identifier with a dot before its fourth pipe always falls
    back: when the text in front of the first dot does not hold exactly
    four pipes, the parser returns the fallback record, whatever follows
    the dot.  A website field written with its dots is such a case. *)
Theorem early_dot_falls_back :
  forall (base rest : string) (id : Z),
    noChar "." base = true ->
    countChar "|" base <> 4%nat ->
    parseLogoFromFilename (base ++ String "." rest) id = Return (fallbackLogo id).
Proof.
  intros base rest id N C.
  apply parse_malformed. right; left.
  rewrite (parts_cut base rest N), split_length. lia.
Qed.

Lemma early_dot_falls_back_witness :
  parseLogoFromFilename "CatalunyaRadio|Red|www.ccma.cat|SansSerif|1983.png" 2
  = Return (fallbackLogo 2).
Proof.
  apply (early_dot_falls_back "CatalunyaRadio|Red|www" "ccma.cat|SansSerif|1983.png" 2).
  - reflexivity.
  - cbn. lia.
Defined.

(** X8. The partial-guard parser of [page.tsx] and the full-guard parser
    return the same record on every identifier with at most five parts;
    with more than five the full-guard parser falls back while the
    partial-guard one reads the first five. *)
Theorem guarded_variants_agree :
  forall (filename : string) (id : Z),
    ((List.length (parts filename) <= 5)%nat ->
     PageTsx.parseLogoFromFilename filename id = parseLogoFromFilename filename id)
    /\ ((List.length (parts filename) > 5)%nat ->
        parseLogoFromFilename filename id = Return (fallbackLogo id) /\
        PageTsx.parseLogoFromFilename filename id =
        Return (recordOfParts filename id (firstn 5 (parts filename)))).
Proof.
  intros filename id.
  rewrite partial_guard_eval, full_guard_eval.
  destruct (parts filename) as [|n [|c [|s [|t [|y [|x l]]]]]];
    cbn [List.length firstn]; split; intros L; try lia; try reflexivity.
  split; reflexivity.
Qed.

Lemma guarded_variants_agree_witness :
  PageTsx.parseLogoFromFilename "Acme|Blue||Serif|1950.png" 3
  = parseLogoFromFilename "Acme|Blue||Serif|1950.png" 3.
Proof.
  destruct (guarded_variants_agree "Acme|Blue||Serif|1950.png" 3) as [H _].
  apply H. change (5 <= 5)%nat. lia.
Defined.

(** X9. The no-guard parser declared inside [Page] throws exactly on the
    identifiers with fewer than four parts.  On five non-empty parts it
    returns what the full-guard parser returns when the year field parses
    to a non-zero integer; when the year field does not parse its record
    carries the year [NaN], which no year search matches. *)
Theorem no_guard_parser :
  forall (filename : string) (id : Z),
    ((exists e, NoGuard.parseLogoFromFilename filename id = Throw e)
     <-> (List.length (parts filename) < 4)%nat)
    /\ (forall name color source type year,
           WellFormed filename name color source type year ->
           (forall z, parseInt year = Int z -> z <> 0 ->
                      NoGuard.parseLogoFromFilename filename id =
                      parseLogoFromFilename filename id) /\
           (parseInt year = NaN ->
            exists logo,
              NoGuard.parseLogoFromFilename filename id = Return logo /\
              Logo.year logo = NaN /\
              forall searchTerm, yearMatch searchTerm logo = false)).
Proof.
  intros filename id. split.
  - unfold NoGuard.parseLogoFromFilename, parts.
    destruct (withoutExtension_defined filename) as [w ->]. cbn [deref].
    destruct (split "|" w) as [|n [|c [|s [|t l]]]] eqn:E;
      cbn [destructure5 nth_error deref List.length].
    + now apply split_not_nil in E.
    + split; [lia | eauto].
    + split; [lia | eauto].
    + split; [lia | eauto].
    + split; [intros [e H]; discriminate H | lia].
  - intros n c s t y W. pose proof W as (P & _).
    rewrite (parse_wellformed filename id _ _ _ _ _ W).
    unfold NoGuard.parseLogoFromFilename, parts in *.
    destruct (withoutExtension filename) as [w|]; [|discriminate P].
    cbn [deref]. rewrite P.
    cbn [destructure5 nth_error deref]. unfold NoGuard.parseIntArg.
    unfold logoOfParts. rewrite !orEmpty_id. split.
    + intros z -> Hz. unfold orDefault.
      destruct (Z.eqb_spec z 0); [contradiction | reflexivity].
    + intros ->. eexists. split; [reflexivity|]. split; [reflexivity|].
      intros searchTerm. unfold yearMatch. cbn [Logo.year].
      destruct (isNaN (parseInt searchTerm)); reflexivity.
Qed.

Lemma no_guard_parser_witness :
  NoGuard.parseLogoFromFilename "Acme|Blue|acme|Serif|1950.png" 1 =
  parseLogoFromFilename "Acme|Blue|acme|Serif|1950.png" 1.
Proof.
  destruct (no_guard_parser "Acme|Blue|acme|Serif|1950.png" 1) as [_ H].
  destruct (H "Acme" "Blue" "acme" "Serif" "1950") as [Same _].
  - unfold WellFormed. repeat split; discriminate.
  - apply (Same 1950); [reflexivity | lia].
Defined.

Section Catalogue.

Lemma parseAll_nth (filenames : list string) :
  forall index : Z,
    exists logos : list Logo.t,
      parseAll filenames index = Return logos /\
      List.length logos = List.length filenames /\
      forall i f, nth_error filenames i = Some f ->
                  exists logo, nth_error logos i = Some logo /\
                               parseLogoFromFilename f (index + 1 + Z.of_nat i) = Return logo.
Proof.
  induction filenames as [|f fs IH]; intros index; cbn [parseAll].
  - exists []. split; [reflexivity|]. split; [reflexivity|].
    intros [|i] g H; discriminate H.
  - destruct (parse_returns f (index + 1)) as [l P]. rewrite P.
    destruct (IH (index + 1)) as (ls & -> & L & N).
    exists (l :: ls). split; [reflexivity|]. split; [cbn [List.length]; now rewrite L|].
    intros [|i] g H; cbn [nth_error] in *.
    + injection H as <-. exists l. split; [reflexivity|].
      now replace (index + 1 + Z.of_nat 0) with (index + 1) by lia.
    + destruct (N i g H) as (logo & Hl & Hp). exists logo. split; [exact Hl|].
      now replace (index + 1 + Z.of_nat (S i)) with (index + 1 + 1 + Z.of_nat i) by lia.
Qed.

End Catalogue.

(** X10. Parsing the catalogue never throws, whatever the identifiers:
    there are as many records as identifiers, the record at index [i]
    is the parse of the identifier at index [i] with id [i + 1], and no
    two records share an id. *)
Theorem catalogue_ids :
  forall filenames : list string,
    exists logos : list Logo.t,
      parseAll filenames 0 = Return logos /\
      List.length logos = List.length filenames /\
      (forall i f, nth_error filenames i = Some f ->
                   exists logo, nth_error logos i = Some logo /\
                                parseLogoFromFilename f (Z.of_nat i + 1) = Return logo) /\
      (forall i logo, nth_error logos i = Some logo -> Logo.id logo = Z.of_nat i + 1) /\
      (forall i j a b, nth_error logos i = Some a -> nth_error logos j = Some b ->
                       Logo.id a = Logo.id b -> i = j).
Proof.
  intros filenames.
  destruct (parseAll_nth filenames 0) as (logos & P & L & N).
  exists logos. split; [exact P|]. split; [exact L|].
  assert (forall i logo, nth_error logos i = Some logo -> Logo.id logo = Z.of_nat i + 1) as Ids.
  { intros i logo H.
    assert (i < List.length filenames)%nat as B.
    { rewrite <- L. apply nth_error_Some. congruence. }
    apply nth_error_Some in B.
    destruct (nth_error filenames i) as [f|] eqn:F; [|congruence].
    destruct (N i f F) as (logo' & H' & Hp).
    assert (logo' = logo) as -> by congruence.
    destruct (parsed_fields _ _ _ Hp) as (I & _). rewrite I. lia. }
  split; [|split; [exact Ids|]].
  - intros i f F. destruct (N i f F) as (logo & Hl & Hp).
    exists logo. split; [exact Hl|].
    now replace (Z.of_nat i + 1) with (0 + 1 + Z.of_nat i) by lia.
  - intros i j a b Ha Hb E.
    apply Ids in Ha, Hb. lia.
Qed.

(** X11. A record that came from five non-empty parts identifies its
    identifier: if the parse of a well-formed identifier equals the parse
    of any identifier at any position, the two identifiers and the two
    positions are the same. *)
Theorem parse_injective_on_wellformed :
  forall (filename filename' : string) (id id' : Z) (name color source type year : string),
    WellFormed filename name color source type year ->
    parseLogoFromFilename filename id = parseLogoFromFilename filename' id' ->
    filename = filename' /\ id = id'.
Proof.
  intros f g id id' n c s t y W E.
  rewrite (parse_wellformed f id _ _ _ _ _ W) in E. symmetry in E.
  destruct (parse_cases _ _ _ E) as [[_ H] | (n' & c' & s' & t' & y' & W' & H)].
  - exfalso. apply (wellformed_imageUrl f id _ _ _ _ _ W). now rewrite H.
  - split.
    + apply (f_equal Logo.imageUrl) in H. cbn [logoOfParts Logo.imageUrl] in H.
      now injection H.
    + now apply (f_equal Logo.id) in H.
Qed.

Lemma parse_injective_on_wellformed_witness :
  "Acme|Blue|acme|Serif|1950.png" = "Acme|Blue|acme|Serif|1950.png" /\ 1 = 1.
Proof.
  apply (parse_injective_on_wellformed
           "Acme|Blue|acme|Serif|1950.png" "Acme|Blue|acme|Serif|1950.png" 1 1
           "Acme" "Blue" "acme" "Serif" "1950").
  - unfold WellFormed. repeat split; discriminate.
  - reflexivity.
Defined.

(* ===================================================================== *)
(** * More about the query engine *)
(* ===================================================================== *)

Section Filtering.

Lemma filter_twice {A} (f g : A -> bool) (l : list A) :
  List.filter f (List.filter g l) = List.filter (fun x => g x && f x) l.
Proof.
  induction l as [|x l IH]; cbn [List.filter]; [reflexivity|].
  destruct (g x); cbn [List.filter andb]; [|exact IH].
  destruct (f x); now rewrite IH.
Qed.

Lemma filter_same {A} (f g : A -> bool) (l : list A) :
  (forall x, f x = g x) -> List.filter f l = List.filter g l.
Proof.
  intros E. induction l as [|x l IH]; cbn [List.filter]; [reflexivity|].
  now rewrite E, IH.
Qed.

Lemma matchesSearch_empty (logo : Logo.t) : matchesSearch "" logo = true.
Proof.
  unfold matchesSearch. cbn [orEmpty falsy toLowerCase]. now rewrite includes_empty.
Qed.

Lemma filteredLogos_refines (st st' : string) (f f' : Filters.t) (logos : list Logo.t) :
  (forall logo, matchesLogo st f logo = true -> matchesLogo st' f' logo = true) ->
  filteredLogos st f logos = filteredLogos st f (filteredLogos st' f' logos).
Proof.
  intros Imp. unfold filteredLogos. rewrite filter_twice. apply filter_same.
  intros logo. destruct (matchesLogo st f logo) eqn:M.
  - now rewrite (Imp logo M).
  - now rewrite andb_false_r.
Qed.

Lemma digitValue_toLowerChar (c : ascii) : digitValue (toLowerChar c) = digitValue c.
Proof. by_code_unit c. Qed.

Lemma isWhiteSpace_toLowerChar (c : ascii) : isWhiteSpace (toLowerChar c) = isWhiteSpace c.
Proof. by_code_unit c. Qed.

Lemma trimStart_toLowerCase (s : string) :
  trimStart (toLowerCase s) = toLowerCase (trimStart s).
Proof.
  induction s as [|c s IH]; cbn [toLowerCase trimStart]; [reflexivity|].
  rewrite isWhiteSpace_toLowerChar.
  destruct (isWhiteSpace c); [exact IH | reflexivity].
Qed.

Lemma stripSign_toLowerCase (s : string) :
  stripSign (toLowerCase s) = (fst (stripSign s), toLowerCase (snd (stripSign s))).
Proof.
  destruct s as [|c s]; [reflexivity|].
  destruct c as [[] [] [] [] [] [] [] []]; reflexivity.
Qed.

Lemma stripHexPrefix_toLowerCase (s : string) :
  stripHexPrefix (toLowerCase s) =
  (fst (stripHexPrefix s), toLowerCase (snd (stripHexPrefix s))).
Proof.
  destruct s as [|c s]; [reflexivity|].
  destruct c as [[] [] [] [] [] [] [] []]; try reflexivity.
  destruct s as [|c' s]; [reflexivity|].
  destruct c' as [[] [] [] [] [] [] [] []]; reflexivity.
Qed.

Lemma parseDigits_toLowerCase (R : Z) (s : string) :
  forall acc, parseDigits R (toLowerCase s) acc = parseDigits R s acc.
Proof.
  induction s as [|c s IH]; intros acc; cbn [toLowerCase parseDigits]; [reflexivity|].
  unfold radixDigit. rewrite digitValue_toLowerChar.
  destruct (digitValue c) as [d|]; [|reflexivity].
  destruct (d <? R); [apply IH | reflexivity].
Qed.

Lemma parseInt_toLowerCase (s : string) : parseInt (toLowerCase s) = parseInt s.
Proof.
  unfold parseInt.
  rewrite trimStart_toLowerCase, stripSign_toLowerCase.
  destruct (stripSign (trimStart s)) as [sign s1]. cbn [fst snd].
  rewrite stripHexPrefix_toLowerCase.
  destruct (stripHexPrefix s1) as [R s2]. cbn [fst snd].
  now rewrite parseDigits_toLowerCase.
Qed.

Lemma same_decade_iff (y s : Z) : inDecadeOf y s <-> y / 10 = s / 10.
Proof.
  unfold inDecadeOf.
  pose proof (Z.div_mod y 10 ltac:(lia)) as Dy.
  pose proof (Z.mod_pos_bound y 10 ltac:(lia)) as By.
  split; intros H.
  - nia.
  - rewrite <- H. lia.
Qed.

End Filtering.

(** X12. Filtering composes: filtering a result again with the same query
    changes nothing, two queries can be applied in either order, and one
    query with a term, a color and a type gives what the term alone, then
    the type alone, then the color alone give. *)
Theorem filters_compose :
  forall (searchTerm searchTerm' : string) (filters filters' : Filters.t)
         (logos : list Logo.t),
    filteredLogos searchTerm filters (filteredLogos searchTerm filters logos)
    = filteredLogos searchTerm filters logos
    /\ filteredLogos searchTerm filters (filteredLogos searchTerm' filters' logos)
       = filteredLogos searchTerm' filters' (filteredLogos searchTerm filters logos)
    /\ filteredLogos searchTerm filters logos
       = filteredLogos "" (Filters.mk (Filters.color filters) "")
           (filteredLogos "" (Filters.mk "" (Filters.type filters))
              (filteredLogos searchTerm Filters.initial logos)).
Proof.
  intros st st' f f' logos. unfold filteredLogos. rewrite !filter_twice.
  split; [|split]; apply filter_same; intros logo.
  - now destruct (matchesLogo st f logo).
  - apply andb_comm.
  - unfold matchesLogo, matchesColor, matchesType.
    rewrite !matchesSearch_empty.
    cbn [Filters.initial Filters.color Filters.type falsy orb andb].
    destruct (matchesSearch st logo),
      (falsy (Filters.color f) || String.eqb (Logo.color logo) (Filters.color f)),
      (falsy (Filters.type f) || String.eqb (Logo.type logo) (Filters.type f));
      reflexivity.
Qed.

(** X13. A filter only narrows: the result with a color (type, term) set
    is a subsequence of the result of the same query with that color
    (type, term) cleared. *)
Theorem filters_narrow :
  forall (searchTerm color type : string) (logos : list Logo.t),
    sublist (filteredLogos searchTerm (Filters.mk color type) logos)
            (filteredLogos searchTerm (Filters.mk "" type) logos)
    /\ sublist (filteredLogos searchTerm (Filters.mk color type) logos)
               (filteredLogos searchTerm (Filters.mk color "") logos)
    /\ sublist (filteredLogos searchTerm (Filters.mk color type) logos)
               (filteredLogos "" (Filters.mk color type) logos).
Proof.
  intros st c t logos.
  split; [|split].
  - rewrite (filteredLogos_refines st st (Filters.mk c t) (Filters.mk "" t) logos).
    + apply filteredLogos_sublist.
    + intros logo. unfold matchesLogo, matchesColor.
      cbn [Filters.color Filters.type falsy orb].
      rewrite !andb_true_iff. tauto.
  - rewrite (filteredLogos_refines st st (Filters.mk c t) (Filters.mk c "") logos).
    + apply filteredLogos_sublist.
    + intros logo. unfold matchesLogo, matchesType.
      cbn [Filters.color Filters.type falsy orb].
      rewrite !andb_true_iff. tauto.
  - rewrite (filteredLogos_refines st "" (Filters.mk c t) (Filters.mk c t) logos).
    + apply filteredLogos_sublist.
    + intros logo. unfold matchesLogo. rewrite matchesSearch_empty.
      rewrite !andb_true_iff. tauto.
Qed.

(** X14. The search does not depend on the case of the term: the term
    and its lower-cased form select the same records, on the name branch
    because both sides are lower-cased and on the year branch because
    [parseInt] reads the same number from both. *)
Theorem search_ignores_case :
  forall (searchTerm : string) (filters : Filters.t) (logos : list Logo.t),
    parseInt (toLowerCase searchTerm) = parseInt searchTerm
    /\ filteredLogos (toLowerCase searchTerm) filters logos
       = filteredLogos searchTerm filters logos.
Proof.
  intros st f logos. split; [apply parseInt_toLowerCase|].
  unfold filteredLogos. apply filter_same. intros logo.
  unfold matchesLogo, matchesSearch, yearMatch.
  now rewrite !orEmpty_id, toLowerCase_idempotent, parseInt_toLowerCase.
Qed.

(** X15. Decades partition the years of absolute value below [2^53 - 9]:
    such a year is in the decade of such a search year exactly when both
    have the same quotient by ten, so the test is symmetric, every year
    is in its own decade, and two search terms that parse to years of one
    decade switch the year branch on for the same records. *)
Theorem decades_partition :
  forall (y s : Z),
    exactRange y -> exactRange s ->
    (isInDecade (Int y) (Int s) = true <-> y / 10 = s / 10)
    /\ isInDecade (Int y) (Int s) = isInDecade (Int s) (Int y)
    /\ isInDecade (Int y) (Int y) = true
    /\ (forall searchTerm searchTerm' logo,
           parseInt searchTerm = Int y -> parseInt searchTerm' = Int s ->
           exactNumber (Logo.year logo) ->
           y / 10 = s / 10 ->
           yearMatch searchTerm logo = yearMatch searchTerm' logo).
Proof.
  intros y s _ _.
  assert (forall a b, isInDecade (Int a) (Int b) = true <-> a / 10 = b / 10) as Iff.
  { intros a b. now rewrite isInDecade_Int, same_decade_iff. }
  split; [apply Iff|]. split; [|split].
  - destruct (isInDecade (Int y) (Int s)) eqn:A, (isInDecade (Int s) (Int y)) eqn:B;
      try reflexivity.
    + apply Iff in A. symmetry in A. apply Iff in A. congruence.
    + apply Iff in B. symmetry in B. apply Iff in B. congruence.
  - now apply Iff.
  - intros st st' logo P P' _ E. unfold yearMatch. rewrite P, P'. cbn [isNaN negb].
    unfold isInDecade. cbn [floorDiv mul]. now rewrite E.
Qed.

Lemma decades_partition_witness :
  yearMatch "1920" scenarioA_expected = yearMatch "1929 approx" scenarioA_expected.
Proof.
  assert (exactRange 1920 /\ exactRange 1929) as [E0 E9] by (split; split; reflexivity).
  destruct (decades_partition 1920 1929 E0 E9) as (_ & _ & _ & H).
  apply H; try reflexivity. vm_compute; split; reflexivity.
Defined.

(* ===================================================================== *)
(** * The filter buttons and the search box *)
(* ===================================================================== *)

Section Buttons.

Lemma applyClick_color_vocabulary (filters : Filters.t) (c : click) :
  colorInVocabulary filters -> colorInVocabulary (applyClick filters c).
Proof.
  intros H. destruct c as [colorId r | type r]; cbn [applyClick].
  - unfold colorInVocabulary, clickColor, handleColorSelect. cbn [Filters.color].
    destruct (String.eqb _ colorId); [now left | now right].
  - exact H.
Qed.

Lemma fold_clicks_color_vocabulary (clicks : list click) (filters : Filters.t) :
  colorInVocabulary filters -> colorInVocabulary (fold_left applyClick clicks filters).
Proof.
  revert filters. induction clicks as [|c clicks IH]; intros filters H; cbn [fold_left].
  - exact H.
  - apply IH. now apply applyClick_color_vocabulary.
Qed.

Lemma color_button_not_empty (c : string) : In c colorButtons -> c <> "".
Proof. intros H ->. cbn in H. intuition discriminate. Qed.

Lemma type_button_not_empty (t : string) : In t typeButtons -> t <> "".
Proof. intros H ->. cbn in H. intuition discriminate. Qed.

End Buttons.

(** X16. The filter states a session can reach are exactly those whose
    color is unset or one of the four color buttons and whose type is
    unset or one of the two type buttons, and each of them is reached
    from the initial state with at most two clicks. *)
Theorem reachable_filters :
  forall filters : Filters.t,
    (reachable filters <-> colorInVocabulary filters /\ typeInVocabulary filters)
    /\ (reachable filters ->
        exists clicks : list click,
          (List.length clicks <= 2)%nat /\
          filters = fold_left applyClick clicks Filters.initial).
Proof.
  intros filters.
  assert (colorInVocabulary filters /\ typeInVocabulary filters ->
          exists clicks : list click,
            (List.length clicks <= 2)%nat /\
            filters = fold_left applyClick clicks Filters.initial) as Build.
  { destruct filters as [c t]. unfold colorInVocabulary, typeInVocabulary.
    cbn [Filters.color Filters.type]. intros [[-> | Hc] [-> | Ht]].
    - exists []. split; [cbn; lia | reflexivity].
    - exists [ClickType t Ht]. split; [cbn; lia|].
      cbn [fold_left applyClick]. unfold clickType. cbn [Filters.initial Filters.color Filters.type].
      now rewrite (handleTypeSelect_other "" t (type_button_not_empty t Ht)).
    - exists [ClickColor c Hc]. split; [cbn; lia|].
      cbn [fold_left applyClick]. unfold clickColor. cbn [Filters.initial Filters.color Filters.type].
      now rewrite (handleColorSelect_other "" c (color_button_not_empty c Hc)).
    - exists [ClickColor c Hc; ClickType t Ht]. split; [cbn; lia|].
      cbn [fold_left applyClick]. unfold clickColor, clickType.
      cbn [Filters.initial Filters.color Filters.type].
      now rewrite (handleTypeSelect_other "" t (type_button_not_empty t Ht)),
                  (handleColorSelect_other "" c (color_button_not_empty c Hc)). }
  assert (reachable filters -> colorInVocabulary filters /\ typeInVocabulary filters) as Inv.
  { intros [clicks ->]. split.
    - apply fold_clicks_color_vocabulary. now left.
    - apply fold_clicks_vocabulary. now left. }
  split; [split|].
  - exact Inv.
  - intros H. destruct (Build H) as (clicks & _ & E). now exists clicks.
  - intros R. apply Build, Inv, R.
Qed.

Lemma reachable_filters_witness :
  exists clicks : list click,
    (List.length clicks <= 2)%nat /\
    Filters.mk "red" "serif" = fold_left applyClick clicks Filters.initial.
Proof.
  destruct (reachable_filters (Filters.mk "red" "serif")) as [[_ R] Short].
  apply Short, R. split.
  - right. cbn. tauto.
  - right. cbn. tauto.
Defined.

Section SearchBox.

Lemma searchBar_step_keeps (st st' : SearchBar.t) (e : SearchBar.event) :
  SearchBar.step st e = Some st' ->
  SearchBar.lastSent st = SearchBar.searchValue st ->
  SearchBar.lastSent st' = SearchBar.searchValue st'.
Proof.
  destruct e; cbn [SearchBar.step]; intros H I.
  - injection H as <-. reflexivity.
  - injection H as <-. exact I.
  - destruct (falsy (SearchBar.searchValue st)); injection H as <-; exact I.
  - destruct (SearchBar.clearButtonShown st); [|discriminate H].
    injection H as <-. reflexivity.
Qed.

Lemma searchBar_step_sent (st st' : SearchBar.t) (e : SearchBar.event) :
  SearchBar.step st e = Some st' ->
  List.length (SearchBar.sent st') =
  ((if callsOnSearch e then 1 else 0) + List.length (SearchBar.sent st))%nat.
Proof.
  destruct e; cbn [SearchBar.step callsOnSearch]; intros H.
  - injection H as <-. reflexivity.
  - injection H as <-. reflexivity.
  - destruct (falsy (SearchBar.searchValue st)); injection H as <-; reflexivity.
  - destruct (SearchBar.clearButtonShown st); [|discriminate H].
    injection H as <-. reflexivity.
Qed.

Lemma searchBar_run_keeps (events : list SearchBar.event) :
  forall st st',
    SearchBar.run st events = Some st' ->
    (SearchBar.lastSent st = SearchBar.searchValue st ->
     SearchBar.lastSent st' = SearchBar.searchValue st') /\
    List.length (SearchBar.sent st') =
    (List.length (List.filter callsOnSearch events) + List.length (SearchBar.sent st))%nat.
Proof.
  induction events as [|e events IH]; intros st st' H; cbn [SearchBar.run] in H.
  - injection H as <-. split; [tauto | reflexivity].
  - destruct (SearchBar.step st e) as [st1|] eqn:S; [|discriminate H].
    destruct (IH st1 st' H) as [K L]. split.
    + intros I. apply K. exact (searchBar_step_keeps st st1 e S I).
    + rewrite L, (searchBar_step_sent st st1 e S). cbn [List.filter].
      destruct (callsOnSearch e); cbn [List.length]; lia.
Qed.

End SearchBox.

(** X17. Through any sequence of changes, focus, blur and clear clicks on
    the search box, the term last handed to [onSearch] is the text in the
    box (the empty term before anything was handed over), [onSearch] has
    been called once per change and clear click, and the clear button is
    shown exactly while the box holds text. *)
Theorem search_box_in_step :
  forall (events : list SearchBar.event) (st : SearchBar.t),
    SearchBar.run SearchBar.initial events = Some st ->
    SearchBar.lastSent st = SearchBar.searchValue st
    /\ List.length (SearchBar.sent st) = List.length (List.filter callsOnSearch events)
    /\ (SearchBar.clearButtonShown st = true <-> SearchBar.lastSent st <> "")
    /\ (SearchBar.step st SearchBar.ClearClick = None <-> SearchBar.lastSent st = "").
Proof.
  intros events st H.
  destruct (searchBar_run_keeps events _ _ H) as [K L].
  specialize (K eq_refl). split; [exact K|]. split; [|split].
  - rewrite L. cbn. lia.
  - rewrite K. unfold SearchBar.clearButtonShown.
    rewrite negb_true_iff. apply falsy_false.
  - rewrite K. cbn [SearchBar.step]. unfold SearchBar.clearButtonShown.
    destruct (SearchBar.searchValue st); cbn [falsy negb]; split; congruence.
Qed.

Lemma search_box_in_step_witness :
  SearchBar.lastSent (SearchBar.mk false "" [""; "ra"; "r"]) = "".
Proof.
  destruct (search_box_in_step
              [SearchBar.Focus; SearchBar.Change "r"; SearchBar.Change "ra";
               SearchBar.ClearClick; SearchBar.Blur]
              (SearchBar.mk false "" [""; "ra"; "r"]) eq_refl) as [H _].
  exact H.
Defined.

(* ===================================================================== *)
(** * The parser and the query engine together *)
(* ===================================================================== *)

(** X18. For a term and a record whose parsed integer and year are of
    absolute value below [2^53 - 9], the year branch only accepts a term
    that parses to a number within nine years of the record's year; for a
    record with a four-digit year that number has four digits too, so
    the first digits of a year do not find it by year. *)
Theorem year_branch_needs_full_year :
  forall (searchTerm : string) (logo : Logo.t) (n y : Z),
    parseInt searchTerm = Int n -> Logo.year logo = Int y ->
    exactRange n -> exactRange y ->
    yearMatch searchTerm logo = true ->
    y - 9 <= n <= y + 9 /\
    (1000 <= y <= 9999 -> 1000 <= n <= 9999).
Proof.
  intros st logo n y P Y _ _ H.
  apply yearMatch_spec in H. destruct H as (n' & y' & P' & Y' & D).
  assert (n' = n) as -> by congruence. assert (y' = y) as -> by congruence.
  unfold inDecadeOf in D.
  pose proof (Z.div_mod n 10 ltac:(lia)) as Dn.
  pose proof (Z.mod_pos_bound n 10 ltac:(lia)) as Bn.
  split; lia.
Qed.

Lemma year_branch_needs_full_year_witness :
  1922 - 9 <= 1925 <= 1922 + 9 /\ (1000 <= 1922 <= 9999 -> 1000 <= 1925 <= 9999).
Proof.
  assert (exactRange 1925 /\ exactRange 1922) as [En Ey] by (split; split; reflexivity).
  exact (year_branch_needs_full_year "1925" scenarioA_expected 1925 1922
           eq_refl eq_refl En Ey eq_refl).
Defined.

(** X19. For the record of five non-empty parts the color (type) filter
    compares the filter value with the lower-cased color (type) field:
    the record passes exactly when the filter is unset or equals the
    field in lower case, so a color button finds its color in any
    letter case. *)
Theorem filter_compares_lowercased_fields :
  forall (filename : string) (id : Z) (name color source type year : string)
         (logo : Logo.t) (filters : Filters.t),
    WellFormed filename name color source type year ->
    parseLogoFromFilename filename id = Return logo ->
    (matchesColor filters logo = true <->
     Filters.color filters = "" \/ toLowerCase color = Filters.color filters)
    /\ (matchesType filters logo = true <->
        Filters.type filters = "" \/ toLowerCase type = Filters.type filters).
Proof.
  intros f id n c s t y logo filters W P.
  rewrite (parse_wellformed f id _ _ _ _ _ W) in P. injection P as <-.
  rewrite matchesColor_spec, matchesType_spec.
  cbn [logoOfParts Logo.color Logo.type]. rewrite !orEmpty_id. tauto.
Qed.

Lemma filter_compares_lowercased_fields_witness :
  matchesColor (clickColor Filters.initial "blue")
    (logoOfParts "Acme|BLUE|acme|Sans-Serif|1950.png" 1
                 "Acme" "BLUE" "acme" "Sans-Serif" "1950") = true
  /\ matchesType (clickType Filters.initial "sans-serif")
       (logoOfParts "Acme|BLUE|acme|Sans-Serif|1950.png" 1
                    "Acme" "BLUE" "acme" "Sans-Serif" "1950") = true.
Proof.
  split.
  - apply (filter_compares_lowercased_fields "Acme|BLUE|acme|Sans-Serif|1950.png" 1
             "Acme" "BLUE" "acme" "Sans-Serif" "1950").
    + unfold WellFormed. repeat split; discriminate.
    + reflexivity.
    + right. reflexivity.
  - apply (filter_compares_lowercased_fields "Acme|BLUE|acme|Sans-Serif|1950.png" 1
             "Acme" "BLUE" "acme" "Sans-Serif" "1950").
    + unfold WellFormed. repeat split; discriminate.
    + reflexivity.
    + right. reflexivity.
Defined.

(** X20. A malformed identifier is not dropped from the gallery: its
    fallback record passes a query exactly when the term occurs in
    [invalid logo] (case ignored) or parses to a year from 2000 to 2009,
    the color filter is unset or [black] and the type filter is unset or
    [serif]; the unconstrained query always shows it. *)
Theorem malformed_identifier_is_listed :
  forall (filename : string) (id : Z) (logo : Logo.t)
         (searchTerm : string) (filters : Filters.t),
    Malformed filename ->
    parseLogoFromFilename filename id = Return logo ->
    (matchesLogo searchTerm filters logo = true <->
     (isSubstringOf (toLowerCase searchTerm) "invalid logo" \/
      exists n, parseInt searchTerm = Int n /\ 2000 <= n <= 2009) /\
     (Filters.color filters = "" \/ Filters.color filters = "black") /\
     (Filters.type filters = "" \/ Filters.type filters = "serif"))
    /\ filteredLogos "" Filters.initial [logo] = [logo].
Proof.
  intros f id logo st filters M P.
  rewrite (parse_malformed f id M) in P. injection P as <-.
  split.
  - rewrite matchesLogo_spec.
    cbn [fallbackLogo Logo.name Logo.year Logo.color Logo.type].
    change (toLowerCase "Invalid Logo") with "invalid logo".
    assert ((exists s y, parseInt st = Int s /\ Int 2000 = Int y /\ inDecadeOf y s)
            <-> exists n, parseInt st = Int n /\ 2000 <= n <= 2009) as ->.
    { split.
      - intros (s & y & Hs & Hy & D). injection Hy as <-. exists s. split; [exact Hs|].
        unfold inDecadeOf in D.
        pose proof (Z.div_mod s 10 ltac:(lia)) as Ds.
        pose proof (Z.mod_pos_bound s 10 ltac:(lia)) as Bs. lia.
      - intros (n & Hn & B). exists n, 2000. split; [exact Hn|]. split; [reflexivity|].
        unfold inDecadeOf.
        pose proof (Z.div_mod n 10 ltac:(lia)) as Dn.
        pose proof (Z.mod_pos_bound n 10 ltac:(lia)) as Bn. lia. }
    intuition auto.
  - unfold filteredLogos. cbn [List.filter].
    now rewrite matchesLogo_unconstrained.
Qed.

Lemma malformed_identifier_is_listed_witness :
  filteredLogos "" Filters.initial [fallbackLogo 1] = [fallbackLogo 1].
Proof.
  apply (malformed_identifier_is_listed scenarioA 1 (fallbackLogo 1) "" Filters.initial).
  - right; left. cbn. lia.
  - reflexivity.
Defined.
